(** * Station rotation: the pairing engine of [src/app.py]

    A shallow embedding of the class [ProductionRotation] and of the
    validation step that guards it in [main], followed by the properties
    the specification states about them.

    Python integers are [Z]; the two dictionaries of the engine are
    [gmap string (list Z)]; a Python [set] is a [gset Z]; an index that
    is out of range is [None] (Python raises [IndexError]). *)

From Stdlib Require Import Ascii.
From stdpp Require Import base numbers list sorting gmap strings pretty.

Open Scope Z_scope.

(** ** Python primitives used by the source *)

(** [sorted(l)] on integers. *)
Definition sorted (l : list Z) : list Z := merge_sort Z.le l.

(** [list(set(l))]: the elements of the set, in the set's own order. *)
Definition list_set (l : list Z) : list Z :=
  elements (list_to_set l : gset Z).

(** [len(l)]. *)
Definition len {A} (l : list A) : Z := Z.of_nat (length l).

(** [range(k)]: [0, 1, ..., k-1], empty when [k <= 0]. *)
Definition range (k : Z) : list Z := Z.of_nat <$> seq 0 (Z.to_nat k).

(** [range(a, b)]. *)
Definition range2 (a b : Z) : list Z := (λ i, a + i) <$> range (b - a).

(** [l[i]]: a negative index counts from the end; out of range is
    [IndexError], here [None]. *)
Definition index {A} (l : list A) (i : Z) : option A :=
  if bool_decide (0 ≤ i) then l !! Z.to_nat i
  else if bool_decide (0 ≤ len l + i) then l !! Z.to_nat (len l + i)
  else None.

(** [x in l] and [not l]. *)
Definition py_in (x : Z) (l : list Z) : bool := bool_decide (x ∈ l).
Definition is_empty {A} (l : list A) : bool :=
  match l with [] => true | _ => false end.

(** [f"{a}-{b}"] for two integers. *)
Definition label (a b : Z) : string := pretty a +:+ "-" +:+ pretty b.

(** ** Configuration constants *)

Definition LINES : list string := ["B"; "C"; "L"; "M"; "N"; "O"].
Definition STATIONS : list Z := range2 1 21.

(** ** The class [ProductionRotation] *)

Record ProductionRotation := mkRotation {
  lines : list string;
  stations : list Z;
  non_operational_stations : gmap string (list Z);
  fixed_stations : gmap string (list Z)
}.

(** [__init__] *)
Definition init : ProductionRotation :=
  {| lines := LINES; stations := STATIONS;
     non_operational_stations := ∅; fixed_stations := ∅ |}.

Definition set_non_operational (self : ProductionRotation)
    (line : string) (sts : list Z) : ProductionRotation :=
  {| lines := lines self; stations := stations self;
     non_operational_stations :=
       <[line := sorted (list_set sts)]> (non_operational_stations self);
     fixed_stations := fixed_stations self |}.

Definition set_fixed (self : ProductionRotation)
    (line : string) (sts : list Z) : ProductionRotation :=
  {| lines := lines self; stations := stations self;
     non_operational_stations := non_operational_stations self;
     fixed_stations :=
       <[line := sorted (list_set sts)]> (fixed_stations self) |}.

Definition get_operational_stations (self : ProductionRotation)
    (line : string) : list Z :=
  let non_op_for_line := default [] (non_operational_stations self !! line) in
  sorted (filter (λ s, ¬ py_in s non_op_for_line) (stations self)).

(** The loop [for i in range(n // 2): pairs.append(...)] of [mirror_pair],
    over the remaining indices [idxs], with the list built so far. *)
Fixpoint mirror_loop (sorted_stations : list Z) (n : Z) (idxs : list Z)
    (pairs : list string) : option (list string) :=
  match idxs with
  | [] => Some pairs
  | i :: rest =>
      a ← index sorted_stations i;
      b ← index sorted_stations (n - 1 - i);
      mirror_loop sorted_stations n rest (pairs ++ [label a b])
  end.

Definition mirror_pair (stations_to_pair : list Z) : option (list string) :=
  let sorted_stations := sorted (list_set stations_to_pair) in
  let n := len sorted_stations in
  pairs ← mirror_loop sorted_stations n (range (n `div` 2)) [];
  if bool_decide (n `mod` 2 ≠ 0) then
    let middle_index := n `div` 2 in
    m ← index sorted_stations middle_index;
    Some (pairs ++ [label m m])
  else Some pairs.

Definition generate_pairs (self : ProductionRotation) (line : string)
    : option (list string) :=
  if bool_decide (line = "C") then
    let fixed_c_stations_input := default [] (fixed_stations self !! "C") in
    let valid_fixed_stations_for_pairing :=
      filter (λ s, py_in s (stations self)) fixed_c_stations_input in
    let pairs := (λ s_fixed, label s_fixed s_fixed)
                   <$> valid_fixed_stations_for_pairing in
    let non_op_for_c := default [] (non_operational_stations self !! "C") in
    let remaining_for_mirror_pairing_c :=
      filter (λ s, ¬ py_in s valid_fixed_stations_for_pairing
                   ∧ ¬ py_in s non_op_for_c) (stations self) in
    if is_empty remaining_for_mirror_pairing_c
       && is_empty valid_fixed_stations_for_pairing then Some []
    else if negb (is_empty remaining_for_mirror_pairing_c) then
      mirrored ← mirror_pair remaining_for_mirror_pairing_c;
      Some (pairs ++ mirrored)
    else Some pairs
  else
    let operational_stations := get_operational_stations self line in
    if is_empty operational_stations then Some []
    else mirror_pair operational_stations.

(** [generate_schedule]: the loop over [self.lines] filling
    [schedule_data]; [date_str] is what [datetime.now().strftime] gave. *)
Fixpoint schedule_loop (self : ProductionRotation) (codes : list string)
    (schedule_data : gmap string (list string))
    : option (gmap string (list string)) :=
  match codes with
  | [] => Some schedule_data
  | line_code :: rest =>
      ps ← generate_pairs self line_code;
      schedule_loop self rest (<[line_code := ps]> schedule_data)
  end.

Definition generate_schedule (self : ProductionRotation) (date_str : string)
    : option (string * gmap string (list string)) :=
  schedule_data ← schedule_loop self (lines self) ∅;
  Some (date_str, schedule_data).

(** The engine states a caller can build: a fresh engine, then any
    sequence of the two setters. *)
Inductive reachable : ProductionRotation → Prop :=
  | reachable_init : reachable init
  | reachable_set_non_operational self line sts :
      reachable self → reachable (set_non_operational self line sts)
  | reachable_set_fixed self line sts :
      reachable self → reachable (set_fixed self line sts).

(** ** The caller: validation and the submitted branch of [main] *)

(** The part of [st.session_state] that drives the engine, as
    [update_session_state_after_submit] leaves it. *)
Record session := mkSession {
  non_operational : gmap string (list Z);
  accommodation_c : list Z
}.

(** [', '.join(map(str, l))] *)
Fixpoint join_ints (l : list Z) : string :=
  match l with
  | [] => ""
  | [x] => pretty x
  | x :: rest => pretty x +:+ ", " +:+ join_ints rest
  end.

(** The text handed to [st.error] for the overlapping stations. *)
Definition overlap_message (common : list Z) : string :=
  "Configuration Error for Line C: Station(s) " +:+ join_ints common +:+ " "
  +:+ "cannot be selected in both 'Accommodations' and 'Unavailable'. "
  +:+ "Please adjust your selections for Line C and try again.".

(** [validate_line_c_configuration]: [inl msg] when [st.error(msg)] was
    shown and [False] returned, [inr tt] when it returned [True]. *)
Definition validate_line_c_configuration (ss : session) : string + unit :=
  let final_accommodated_c_stations : gset Z :=
    list_to_set (accommodation_c ss) in
  let final_unavailable_c_stations : gset Z :=
    list_to_set (default [] (non_operational ss !! "C")) in
  let common_stations_error_check :=
    final_accommodated_c_stations ∩ final_unavailable_c_stations in
  if bool_decide (common_stations_error_check ≠ ∅) then
    inl (overlap_message (sorted (elements common_stations_error_check)))
  else inr tt.

(** The loop [for line_code in LINES: handler.set_non_operational(...)]. *)
Definition configure_lines (ss : session) (handler : ProductionRotation)
    : ProductionRotation :=
  foldl (λ h line_code,
           set_non_operational h line_code
             (default [] (non_operational ss !! line_code)))
        handler LINES.

(** What the submitted branch of [main] ends with. *)
Inductive outcome :=
  | Rejected (error : string)
  | Scheduled (handler : ProductionRotation) (date : string)
      (schedule_data : gmap string (list string)).

(** [main] after [update_session_state_after_submit]: validation, then the
    engine is configured and the schedule generated and handed to
    [render_download_section]. *)
Definition main_submitted (ss : session) (date_str : string)
    : option outcome :=
  match validate_line_c_configuration ss with
  | inl msg => Some (Rejected msg)
  | inr _ =>
      let handler := configure_lines ss init in
      let handler := set_fixed handler "C" (accommodation_c ss) in
      '(current_date_display, schedule_data) ←
         generate_schedule handler date_str;
      Some (Scheduled handler current_date_display schedule_data)
  end.

(** ** Vocabulary of the statements *)

(** A pair of stations and the label the engine prints for it. *)
Definition render (p : Z * Z) : string := label p.1 p.2.

Definition self_pair (p : Z * Z) : Prop := p.1 = p.2.
Definition occurs (s : Z) (p : Z * Z) : Prop := s = p.1 ∨ s = p.2.

Global Instance self_pair_dec p : Decision (self_pair p).
Proof. unfold self_pair. apply _. Defined.
Global Instance occurs_dec s p : Decision (occurs s p).
Proof. unfold occurs. apply _. Defined.

(** In how many of the pairs [ps] station [s] occurs. *)
Definition occurrences (s : Z) (ps : list (Z * Z)) : nat :=
  length (filter (occurs s) ps).

(** The pairs of a sequence read by position: first with last, second
    with last but one, ..., and the middle element with itself when the
    length is odd.  [mirror_pair] returns their labels. *)
Definition mirror_pairs (sq : list Z) : list (Z * Z) :=
  let n := length sq in
  ((λ i, (sq !!! i, sq !!! (n - 1 - i)%nat)) <$> seq 0 (n / 2)%nat) ++
  (if bool_decide (n mod 2 ≠ 0)%nat
   then [(sq !!! (n / 2)%nat, sq !!! (n / 2)%nat)] else []).

(** Every list stored in a dictionary of the engine is strictly
    ascending. *)
Definition stored_sorted (m : gmap string (list Z)) : Prop :=
  ∀ line l, m !! line = Some l → StronglySorted Z.lt l.

(** A history of the engine: the setter calls made on a fresh instance. *)
Inductive call :=
  | CallSetNonOperational (line : string) (sts : list Z)
  | CallSetFixed (line : string) (sts : list Z).

Definition call_line (c : call) : string :=
  match c with
  | CallSetNonOperational line _ | CallSetFixed line _ => line
  end.

Definition do_call (self : ProductionRotation) (c : call)
    : ProductionRotation :=
  match c with
  | CallSetNonOperational line sts => set_non_operational self line sts
  | CallSetFixed line sts => set_fixed self line sts
  end.

Definition run (calls : list call) : ProductionRotation :=
  foldl do_call init calls.

(** The mirror pairing of the whole universe. *)
Definition full_pairing : list string :=
  ["1-20"; "2-19"; "3-18"; "4-17"; "5-16";
   "6-15"; "7-14"; "8-13"; "9-12"; "10-11"].

(** A string without the separator character. *)
Fixpoint no_dash (s : string) : Prop :=
  match s with
  | EmptyString => True
  | String c s' => c ≠ "-"%char ∧ no_dash s'
  end.

(** ** The rest of the caller: session state, form rows, download *)

(** The Streamlit calls the modelled functions make, with the arguments
    the source passes. *)
Inductive st_call :=
  | st_error (body : string)
  | st_info (body : string)
  | st_warning (body : string)
  | st_success (body : string)
  | st_columns (spec : list Z)
  | st_markdown (body : string) (unsafe_allow_html : bool)
  | st_multiselect (label : string) (options : list Z) (key : string)
      (help : string)
  | st_download_button (label : string) (data : string) (file_name : string)
      (mime : string) (use_container_width : bool) (key : string)
  | st_set_page_config (page_title layout : string)
  | st_title (body : string)
  | st_header (body : string)
  | st_caption (body : string)
  | st_write (body : string)
  | st_divider
  | st_form (key : string) (clear_on_submit : bool)
  | st_form_submit_button (label : string) (type : string)
      (use_container_width : bool).

(** [any(d.values())] for a dictionary of lists: some value is
    non-empty. *)
Definition any_values {A} (d : gmap string (list A)) : bool :=
  existsb (λ v, negb (is_empty v)) (snd <$> map_to_list d).

(** [s.replace(old, new)] for two single characters. *)
Fixpoint replace_char (old new : ascii) (s : string) : string :=
  match s with
  | EmptyString => EmptyString
  | String c s' =>
      String (if decide (c = old) then new else c) (replace_char old new s')
  end.

(** [render_download_section]; [generate_print_friendly_html] is taken as
    a parameter, and [data] is the text that is encoded into the buffer. *)
Definition render_download_section
    (generate_print_friendly_html :
       string → gmap string (list string) → gmap string (list Z) → string)
    (rotation_logic_handler : ProductionRotation)
    (current_date_display : string)
    (schedule_data : gmap string (list string)) : list st_call :=
  let down_stations_for_html :=
    non_operational_stations rotation_logic_handler in
  let has_any_pairs := any_values schedule_data in
  let has_any_down_stations := any_values down_stations_for_html in
  if negb has_any_pairs && negb has_any_down_stations then
    [st_error ("No operational stations for pairs and no unavailable "
               +:+ "stations selected. Cannot generate a meaningful schedule.")]
  else
    let shown :=
      if negb has_any_pairs && has_any_down_stations then
        [st_info ("No operational stations available for pairing. "
                  +:+ "The report will show only the unavailable stations.")]
      else [] in
    let html_content :=
      generate_print_friendly_html current_date_display schedule_data
        down_stations_for_html in
    shown ++
    [st_download_button "Click Here to Download HTML" html_content
       ("station_rotation_"
        +:+ replace_char "/" "-" current_date_display +:+ ".html")
       "text/html" true "download_button";
     st_success "HTML file ready. Click the button above to download."].

(** [st.session_state]: the three attributes the code keeps there, absent
    until first assigned, and the values stored under the widget keys
    [non_op_<line>] and [accommodation_stations_c]. *)
Record session_state := mkState {
  st_last_date : option string;
  st_non_operational : option (gmap string (list Z));
  st_accommodation_c : option (list Z);
  st_widgets : gmap string (list Z)
}.

(** [f"non_op_{line_code}"] *)
Definition non_op_key (line_code : string) : string := "non_op_" +:+ line_code.

(** [{line: [] for line in LINES}] *)
Definition empty_lines : gmap string (list Z) :=
  foldl (λ d line, <[line := []]> d) ∅ LINES.

(** [initialize_session_state]; [current_date_str] is the clock reading. *)
Definition initialize_session_state (ss : session_state)
    (current_date_str : string) : session_state :=
  let new_day :=
    match st_last_date ss with
    | None => true
    | Some last => bool_decide (last ≠ current_date_str)
    end in
  let ss :=
    if new_day then
      {| st_last_date := Some current_date_str;
         st_non_operational := Some empty_lines;
         st_accommodation_c := Some [];
         st_widgets :=
           <["accommodation_stations_c" := []]>
             (foldl (λ w line_code, <[non_op_key line_code := []]> w)
                    (st_widgets ss) LINES) |}
    else ss in
  let non_op :=
    match st_non_operational ss with
    | None => empty_lines
    | Some d => d
    end in
  let acc :=
    match st_accommodation_c ss with
    | None => []
    | Some l => l
    end in
  let w :=
    match st_widgets ss !! "accommodation_stations_c" with
    | None => <["accommodation_stations_c" := []]> (st_widgets ss)
    | Some _ => st_widgets ss
    end in
  let w :=
    foldl (λ w line_code,
             match w !! non_op_key line_code with
             | None => <[non_op_key line_code := []]> w
             | Some _ => w
             end) w LINES in
  {| st_last_date := st_last_date ss;
     st_non_operational := Some non_op;
     st_accommodation_c := Some acc;
     st_widgets := w |}.

(** The widget keys that [initialize_session_state] looks after. *)
Definition widget_key (j : string) : Prop :=
  j = "accommodation_stations_c" ∨ j ∈ non_op_key <$> LINES.

Global Instance widget_key_dec j : Decision (widget_key j).
Proof. unfold widget_key. apply _. Defined.

(** [update_session_state_after_submit]; [None] is the [AttributeError]
    raised when the attribute [non_operational] was never assigned. *)
Definition update_session_state_after_submit (ss : session_state)
    : option session_state :=
  non_op ← st_non_operational ss;
  let non_op :=
    foldl (λ d line_code,
             <[line_code := default [] (st_widgets ss !! non_op_key line_code)]> d)
          non_op LINES in
  Some {| st_last_date := st_last_date ss;
          st_non_operational := Some non_op;
          st_accommodation_c :=
            Some (default [] (st_widgets ss !! "accommodation_stations_c"));
          st_widgets := st_widgets ss |}.

(** What [validate_line_c_configuration] and the submitted branch of
    [main] read from the session state; [None] when an attribute is
    absent. *)
Definition session_of (ss : session_state) : option session :=
  non_op ← st_non_operational ss;
  acc ← st_accommodation_c ss;
  Some (mkSession non_op acc).

(** [_render_line_input_row]: the calls it makes, given the session
    state it reads. *)
Definition _render_line_input_row (ss : session_state)
    (primary_label_text secondary_label_text widget_key : string)
    (options : list Z) (help_text : string) (col_widths : list Z)
    (is_line_c_unavailable : bool) (all_stations : option (list Z))
    : list st_call :=
  let label_calls :=
    [st_columns col_widths;
     if bool_decide (primary_label_text ≠ "") then
       st_markdown ("**" +:+ primary_label_text +:+ "**<br>"
                    +:+ secondary_label_text) true
     else st_markdown secondary_label_text true] in
  let multiselect widget_options :=
    [st_multiselect "" widget_options widget_key help_text] in
  match is_line_c_unavailable, all_stations with
  | true, Some all_stations =>
      let currently_accommodated_c :=
        default [] (st_widgets ss !! "accommodation_stations_c") in
      let widget_options :=
        filter (λ s, ¬ py_in s currently_accommodated_c) all_stations in
      if is_empty widget_options then
        if negb (is_empty currently_accommodated_c) then
          label_calls ++
          [st_info ("All stations are 'Accommodated' or no others "
                    +:+ "to mark 'Unavailable'.")]
        else
          label_calls ++ [st_warning "No stations to mark as 'Unavailable'."]
      else label_calls ++ multiselect widget_options
  | _, _ => label_calls ++ multiselect options
  end.

(** The rows [render_configuration_form] draws for one line. *)
Definition form_rows (ss : session_state)
    (all_stations_for_multiselect : list Z) (line_key : string)
    : list st_call :=
  (if bool_decide (line_key = "C") then
     _render_line_input_row ss "Line C" "Accommodations"
       "accommodation_stations_c" all_stations_for_multiselect
       ("Select stations for operators who will remain at their current "
        +:+ "station (e.g., for '1-1' type pairings).")
       [2; 5] false None
     ++
     _render_line_input_row ss "" "Unavailable" (non_op_key line_key)
       all_stations_for_multiselect
       ("Select stations on Line C that are broken or cannot be used "
        +:+ "today. Cannot be an accommodated station.")
       [2; 5] true (Some all_stations_for_multiselect)
   else
     _render_line_input_row ss ("Line " +:+ line_key) "Unavailable"
       (non_op_key line_key) all_stations_for_multiselect
       ("Select stations on Line " +:+ line_key
        +:+ " that are broken or cannot be used today.")
       [2; 5] false None)
  ++ [st_write ""].

(** [render_configuration_form]: the calls it makes.  What it returns is
    the state of the submit button, which the caller of the model
    supplies. *)
Definition render_configuration_form (ss : session_state)
    (all_stations_for_multiselect : list Z) : list st_call :=
  [st_form "station_config_form" false;
   st_header "Station Configuration";
   st_caption "Specify unavailable stations and Line C accommodations.";
   st_markdown "---" false]
  ++ (LINES ≫= form_rows ss all_stations_for_multiselect)
  ++ [st_divider;
      st_form_submit_button "Generate & Download Schedule" "primary" true].

(** [main].  The three dates are the clock readings taken by
    [initialize_session_state], by [main] itself and by
    [generate_schedule]; [submitted] is the state of the submit button.
    The result is the session state left behind and the Streamlit calls
    made, [None] when an exception escapes. *)
Definition main
    (generate_print_friendly_html :
       string → gmap string (list string) → gmap string (list Z) → string)
    (ss : session_state)
    (current_date_str current_date_str_for_display date_str : string)
    (submitted : bool) : option (session_state * list st_call) :=
  let ss := initialize_session_state ss current_date_str in
  let all_stations_for_multiselect := STATIONS in
  let welcome :=
    match st_last_date ss with
    | Some last =>
        if bool_decide (last ≠ current_date_str_for_display) then
          [st_info ("Welcome! It's a new day ("
                    +:+ current_date_str_for_display +:+ "). "
                    +:+ "The form has been reset for today's input.")]
        else []
    | None => []
    end in
  let calls :=
    [st_set_page_config "Station Rotation" "wide"; st_title "Station Rotation"]
    ++ welcome
    ++ render_configuration_form ss all_stations_for_multiselect in
  if submitted then
    ss ← update_session_state_after_submit ss;
    session ← session_of ss;
    result ← main_submitted session date_str;
    match result with
    | Rejected msg => Some (ss, calls ++ [st_error msg])
    | Scheduled rotation_logic_handler current_date_display schedule_data =>
        Some (ss, calls ++ [st_header "Download"]
                  ++ render_download_section generate_print_friendly_html
                       rotation_logic_handler current_date_display
                       schedule_data)
    end
  else
    let hint :=
      match st_last_date ss with
      | None => true
      | Some last =>
          bool_decide (last = current_date_str_for_display) && negb submitted
      end in
    if hint then
      Some (ss, calls ++
                [st_info ("Configure station settings using the form above "
                          +:+ "and click 'Generate & Download Schedule'.")])
    else Some (ss, calls).

(** The two notices of [main] and the calls it starts with. *)
Definition welcome_info (current_date_str_for_display : string) : st_call :=
  st_info ("Welcome! It's a new day (" +:+ current_date_str_for_display
           +:+ "). " +:+ "The form has been reset for today's input.").

Definition hint_info : st_call :=
  st_info ("Configure station settings using the form above "
           +:+ "and click 'Generate & Download Schedule'.").

Definition main_opening (ss : session_state)
    (current_date_str current_date_str_for_display : string) : list st_call :=
  [st_set_page_config "Station Rotation" "wide"; st_title "Station Rotation"]
  ++ (if bool_decide (current_date_str = current_date_str_for_display)
      then [] else [welcome_info current_date_str_for_display])
  ++ render_configuration_form
       (initialize_session_state ss current_date_str) STATIONS.

(** The download button and the notice that follows it. *)
Definition download_calls (html_content date : string) : list st_call :=
  [st_download_button "Click Here to Download HTML" html_content
     ("station_rotation_" +:+ replace_char "/" "-" date +:+ ".html")
     "text/html" true "download_button";
   st_success "HTML file ready. Click the button above to download."].

(** ** Sorting and deduplication *)

Section sorting.
Implicit Types l xs : list Z.

Lemma lt_sorted_le l : StronglySorted Z.lt l → StronglySorted Z.le l.
Proof.
  induction 1 as [|x l _ IH Hx]; constructor; [done|].
  eapply Forall_impl; [exact Hx|]. intros y ?. lia.
Qed.

Lemma lt_sorted_NoDup l : StronglySorted Z.lt l → NoDup l.
Proof.
  induction 1 as [|x l _ IH Hx]; constructor; [|done].
  rewrite Forall_forall in Hx. intros Hin. specialize (Hx _ Hin). lia.
Qed.

Lemma le_sorted_NoDup_lt l :
  StronglySorted Z.le l → NoDup l → StronglySorted Z.lt l.
Proof.
  induction 1 as [|x l _ IH Hx]; intros Hnd; [constructor|].
  apply NoDup_cons in Hnd as [Hx' Hnd]. constructor; [auto|].
  rewrite Forall_forall in Hx |- *. intros y Hy.
  specialize (Hx _ Hy). assert (x ≠ y) by (intros ->; done). lia.
Qed.

Lemma sorted_perm l : sorted l ≡ₚ l.
Proof. apply merge_sort_Permutation. Qed.

Lemma sorted_elem l x : x ∈ sorted l ↔ x ∈ l.
Proof. by rewrite sorted_perm. Qed.

Lemma sorted_le l : StronglySorted Z.le (sorted l).
Proof. apply (StronglySorted_merge_sort Z.le). Qed.

(** Sorting a list that is already in order leaves it as it is. *)
Lemma sorted_id l : StronglySorted Z.le l → sorted l = l.
Proof.
  intros Hl. apply (StronglySorted_unique Z.le); [apply sorted_le|done|].
  apply sorted_perm.
Qed.

Lemma list_set_NoDup xs : NoDup (list_set xs).
Proof. unfold list_set. apply NoDup_elements. Qed.

Lemma list_set_elem xs x : x ∈ list_set xs ↔ x ∈ xs.
Proof. unfold list_set. by rewrite elem_of_elements, elem_of_list_to_set. Qed.

Lemma sorted_list_set_lt xs : StronglySorted Z.lt (sorted (list_set xs)).
Proof.
  apply le_sorted_NoDup_lt; [apply sorted_le|].
  rewrite sorted_perm. apply list_set_NoDup.
Qed.

Lemma sorted_list_set_elem xs x : x ∈ sorted (list_set xs) ↔ x ∈ xs.
Proof. by rewrite sorted_elem, list_set_elem. Qed.

(** Two strictly ascending lists with the same elements are equal. *)
Lemma lt_sorted_ext l1 l2 :
  StronglySorted Z.lt l1 → StronglySorted Z.lt l2 →
  (∀ x, x ∈ l1 ↔ x ∈ l2) → l1 = l2.
Proof.
  intros H1 H2 Hel.
  apply (StronglySorted_unique Z.le); [by apply lt_sorted_le..|].
  apply NoDup_Permutation; auto using lt_sorted_NoDup.
Qed.

Lemma sorted_list_set_id l :
  StronglySorted Z.lt l → sorted (list_set l) = l.
Proof.
  intros Hl. apply lt_sorted_ext; [apply sorted_list_set_lt|done|].
  intros x. apply sorted_list_set_elem.
Qed.

(** The order in which the set is enumerated does not matter: sorting
    any duplicate-free enumeration of [xs] gives the same list. *)
Lemma sorted_enum_irrelevant l xs :
  NoDup l → (∀ x, x ∈ l ↔ x ∈ xs) → sorted l = sorted (list_set xs).
Proof.
  intros Hnd Hel. apply lt_sorted_ext.
  - apply le_sorted_NoDup_lt; [apply sorted_le|by rewrite sorted_perm].
  - apply sorted_list_set_lt.
  - intros x. by rewrite sorted_elem, sorted_list_set_elem.
Qed.

(** In a strictly ascending list an earlier position holds a smaller
    element. *)
Lemma lt_sorted_lookup l (i j : nat) :
  StronglySorted Z.lt l → (i < j)%nat → (j < length l)%nat →
  l !!! i < l !!! j.
Proof.
  intros Hl. revert i j.
  induction Hl as [|x l _ IH Hx]; intros i j Hij Hj; cbn in Hj; [lia|].
  destruct j as [|j]; [lia|]. destruct i as [|i]; cbn.
  - rewrite Forall_forall in Hx. apply Hx.
    apply list_elem_of_lookup_total_2. lia.
  - apply IH; lia.
Qed.

Lemma filter_lt_sorted (P : Z → Prop) `{!∀ x, Decision (P x)} l :
  StronglySorted Z.lt l → StronglySorted Z.lt (filter P l).
Proof.
  induction 1 as [|x l _ IH Hx]; [constructor|].
  rewrite filter_cons. case_decide; [|done].
  constructor; [done|]. rewrite Forall_forall in Hx |- *.
  intros y [_ Hy]%list_elem_of_filter. auto.
Qed.
End sorting.

(** ** Labels

    A label determines its pair: the digits of an integer hold no dash,
    so the first dash after the first character is the separator. *)

Lemma pretty_N_char_no_dash x : pretty_N_char x ≠ "-"%char.
Proof. unfold pretty_N_char. by repeat case_match. Qed.

Lemma pretty_N_go_no_dash x s : no_dash s → no_dash (pretty_N_go x s).
Proof.
  revert s. induction (N.lt_wf_0 x) as [x _ IH]; intros s Hs.
  assert (x = 0 ∨ 0 < x)%N as [->|Hx] by lia.
  - by rewrite pretty_N_go_0.
  - rewrite pretty_N_go_step by done. apply IH; [by apply N.div_lt|].
    split; [apply pretty_N_char_no_dash|done].
Qed.

Lemma pretty_N_go_nonempty x s :
  (0 < x)%N ∨ s ≠ "" → pretty_N_go x s ≠ "".
Proof.
  revert s. induction (N.lt_wf_0 x) as [x _ IH]; intros s Hs.
  assert (x = 0 ∨ 0 < x)%N as [->|Hx] by lia.
  - rewrite pretty_N_go_0. destruct Hs; [lia|done].
  - rewrite pretty_N_go_step by done. apply IH; [by apply N.div_lt|].
    by right.
Qed.

Lemma pretty_N_digits (x : N) : no_dash (pretty x) ∧ pretty x ≠ "".
Proof.
  unfold pretty, pretty_N. case_decide as Hx.
  - by repeat split.
  - split; [by apply pretty_N_go_no_dash|].
    apply pretty_N_go_nonempty. left. lia.
Qed.

Lemma no_dash_split d1 d2 r1 r2 :
  no_dash d1 → no_dash d2 →
  d1 +:+ String "-" r1 = d2 +:+ String "-" r2 → d1 = d2 ∧ r1 = r2.
Proof.
  revert d2. induction d1 as [|c d1 IH]; intros [|c' d2] H1 H2 Heq;
    cbn in *; simplify_eq.
  - done.
  - by destruct H2.
  - by destruct H1.
  - destruct H1, H2. destruct (IH d2) as [-> ->]; done.
Qed.

Lemma pretty_Z_shape (a : Z) :
  (0 ≤ a → no_dash (pretty a) ∧ pretty a ≠ "") ∧
  (a < 0 → ∃ d, pretty a = String "-" d ∧ no_dash d).
Proof.
  destruct a as [|a|a]; (split; [intros Ha|intros Ha]); try lia.
  - by repeat split.
  - apply (pretty_N_digits (N.pos a)).
  - exists (pretty (N.pos a)). split; [done|].
    apply (pretty_N_digits (N.pos a)).
Qed.

Lemma label_inj a b c d : label a b = label c d → a = c ∧ b = d.
Proof.
  unfold label. intros Heq.
  destruct (pretty_Z_shape a) as [Hapos Haneg].
  destruct (pretty_Z_shape c) as [Hcpos Hcneg].
  assert (pretty a = pretty c ∧ pretty b = pretty d) as [Hac Hbd].
  { destruct (decide (0 ≤ a)) as [Ha|Ha], (decide (0 ≤ c)) as [Hc|Hc].
    - destruct (Hapos Ha) as [Hda _], (Hcpos Hc) as [Hdc _].
      by apply no_dash_split in Heq.
    - destruct (Hapos Ha) as [Hda Hne], (Hcneg ltac:(lia)) as (dc & Hpc & _).
      rewrite Hpc in Heq. destruct (pretty a) as [|ch da]; [done|].
      cbn in Heq, Hda. injection Heq as -> _. by destruct Hda.
    - destruct (Hcpos Hc) as [Hdc Hne], (Haneg ltac:(lia)) as (da & Hpa & _).
      rewrite Hpa in Heq. destruct (pretty c) as [|ch dc]; [done|].
      cbn in Heq, Hdc. injection Heq as <- _. by destruct Hdc.
    - destruct (Haneg ltac:(lia)) as (da & Hpa & Hda).
      destruct (Hcneg ltac:(lia)) as (dc & Hpc & Hdc).
      rewrite Hpa, Hpc in Heq |- *. cbn in Heq. injection Heq as Heq.
      apply no_dash_split in Heq as [-> ->]; done. }
  split; by apply (inj pretty).
Qed.

Lemma render_inj : Inj (=) (=) render.
Proof.
  intros [a b] [c d]. unfold render. cbn. intros [-> ->]%label_inj. done.
Qed.

Global Existing Instance render_inj.

Lemma render_fmap_inj (ps qs : list (Z * Z)) :
  render <$> ps = render <$> qs → ps = qs.
Proof. apply (inj (fmap render)). Qed.

(** ** Indexing and the loop of [mirror_pair] *)

Lemma index_nat {A} `{!Inhabited A} (l : list A) (i : nat) :
  (i < length l)%nat → index l (Z.of_nat i) = Some (l !!! i).
Proof.
  intros Hi. unfold index. rewrite bool_decide_true by lia.
  rewrite Nat2Z.id. by apply list_lookup_lookup_total_lt.
Qed.

Lemma index_mirror {A} `{!Inhabited A} (l : list A) (i : nat) :
  (i < length l)%nat →
  index l (len l - 1 - Z.of_nat i) = Some (l !!! (length l - 1 - i)%nat).
Proof.
  intros Hi. unfold len.
  replace (Z.of_nat (length l) - 1 - Z.of_nat i)
    with (Z.of_nat (length l - 1 - i)) by lia.
  apply index_nat. lia.
Qed.

Lemma mirror_loop_spec (S : list Z) (j k : nat) (acc : list string) :
  (j + k ≤ length S)%nat →
  mirror_loop S (len S) (Z.of_nat <$> seq j k) acc =
  Some (acc ++ ((λ i, label (S !!! i) (S !!! (length S - 1 - i)%nat))
                  <$> seq j k)).
Proof.
  revert j acc. induction k as [|k IH]; intros j acc Hk; simpl.
  { by rewrite app_nil_r. }
  rewrite index_nat by lia. simpl.
  rewrite index_mirror by lia. simpl.
  rewrite IH by lia. by rewrite <-app_assoc.
Qed.

Lemma mirror_pair_render xs :
  mirror_pair xs = Some (render <$> mirror_pairs (sorted (list_set xs))).
Proof.
  unfold mirror_pair, mirror_pairs.
  set (S := sorted (list_set xs)). set (n := length S).
  assert (len S `div` 2 = Z.of_nat (n / 2)) as Hdiv.
  { unfold len. fold n. by rewrite Nat2Z.inj_div. }
  assert (len S `mod` 2 = Z.of_nat (n mod 2)) as Hmod.
  { unfold len. fold n. by rewrite Nat2Z.inj_mod. }
  pose proof (Nat.div_mod_eq n 2) as Hn.
  pose proof (Nat.mod_upper_bound n 2) as Hm.
  cbn zeta. rewrite Hdiv, Hmod. unfold range. rewrite Nat2Z.id.
  remember (n / 2)%nat as h eqn:Hh. remember (n mod 2)%nat as m eqn:Hmm.
  rewrite mirror_loop_spec by (fold n; lia).
  simpl. rewrite fmap_app, <-list_fmap_compose. fold n.
  destruct (decide (m = 0)%nat) as [He|Ho].
  - rewrite !bool_decide_false by lia. by rewrite !app_nil_r.
  - rewrite !bool_decide_true by lia.
    rewrite index_nat by (fold n; lia). done.
Qed.

Lemma mirror_pair_total xs : is_Some (mirror_pair xs).
Proof. rewrite mirror_pair_render. eauto. Qed.

(** ** The pairing, peeled from both ends *)

Lemma mirror_pairs_nil : mirror_pairs [] = [].
Proof. reflexivity. Qed.

Lemma mirror_pairs_one x : mirror_pairs [x] = [(x, x)].
Proof. reflexivity. Qed.

Lemma mirror_pairs_ends x M y :
  mirror_pairs (x :: M ++ [y]) = (x, y) :: mirror_pairs M.
Proof.
  unfold mirror_pairs. cbn zeta.
  rewrite length_cons, length_app. cbn [length].
  set (k := length M).
  replace (S (k + 1)) with (k + 1 * 2)%nat by lia.
  rewrite Nat.div_add, Nat.Div0.mod_add by lia.
  pose proof (Nat.div_mod_eq k 2) as Hk.
  pose proof (Nat.mod_upper_bound k 2) as Hm.
  remember (k / 2)%nat as h eqn:Hh. remember (k mod 2)%nat as m eqn:Hmm.
  replace (h + 1)%nat with (S h) by lia.
  cbn [seq fmap list_fmap app]. f_equal.
  { f_equal. replace (k + 1 * 2 - 1 - 0)%nat with (S k) by lia.
    rewrite lookup_total_cons_ne_0 by lia. cbn [pred].
    rewrite lookup_total_app_r by (fold k; lia). fold k.
    by rewrite Nat.sub_diag. }
  rewrite <-fmap_S_seq, <-list_fmap_compose. f_equal.
  - apply list_fmap_ext. intros i j [-> Hi]%lookup_seq.
    unfold compose. rewrite Nat.add_0_l.
    replace (k + 1 * 2 - 1 - S i)%nat with (S (k - 1 - i)) by lia.
    rewrite !lookup_total_cons_ne_0 by lia. cbn [pred].
    rewrite (lookup_total_app_l M [y] i) by (fold k; lia).
    rewrite (lookup_total_app_l M [y] (k - 1 - i)) by (fold k; lia). done.
  - destruct (decide (m = 0)%nat) as [He|Ho].
    + by rewrite !bool_decide_false by lia.
    + rewrite !bool_decide_true by lia.
      rewrite lookup_total_cons_ne_0 by lia. cbn [pred].
      rewrite lookup_total_app_l by (fold k; lia). done.
Qed.

(** Induction on a list from both ends. *)
Lemma list_ends_ind {A} (P : list A → Prop) :
  P [] → (∀ x, P [x]) → (∀ x l y, P l → P (x :: l ++ [y])) → ∀ l, P l.
Proof.
  intros Hnil Hone Hends l.
  remember (length l) as n eqn:Hn. revert l Hn.
  induction (lt_wf n) as [n _ IH]. intros l Hn.
  destruct l as [|x l]; [done|].
  destruct l as [|y l _] using rev_ind; [done|].
  apply Hends. eapply IH; [|reflexivity].
  subst n. cbn. rewrite length_app. cbn. lia.
Qed.

Lemma NoDup_ends {A} (x y : A) (M : list A) :
  NoDup (x :: M ++ [y]) → (x ≠ y) ∧ (x ∉ M) ∧ (y ∉ M) ∧ NoDup M.
Proof.
  rewrite NoDup_cons, NoDup_app, not_elem_of_app, list_elem_of_singleton.
  intros [[Hx Hxy] (HM & Hy & _)]. repeat split; [done..| |done].
  intros Hin. apply (Hy _ Hin). by apply list_elem_of_singleton.
Qed.

Lemma mirror_pairs_length S :
  length (mirror_pairs S) = ((length S + 1) / 2)%nat.
Proof.
  induction S as [| x | x M y IH] using list_ends_ind; [done..|].
  rewrite mirror_pairs_ends. cbn [length]. rewrite IH, length_app.
  cbn [length]. replace (S (length M + 1) + 1)%nat
    with (length M + 1 + 1 * 2)%nat by lia.
  rewrite Nat.div_add by lia. lia.
Qed.

Lemma mirror_pairs_self S :
  NoDup S →
  length (filter self_pair (mirror_pairs S)) = (length S mod 2)%nat.
Proof.
  induction S as [| x | x M y IH] using list_ends_ind; intros Hnd.
  { reflexivity. }
  { rewrite mirror_pairs_one. by rewrite filter_cons_True. }
  apply NoDup_ends in Hnd as (Hxy & _ & _ & Hnd).
  rewrite mirror_pairs_ends, filter_cons_False by (unfold self_pair; cbn; done).
  rewrite IH by done. cbn [length]. rewrite length_app. cbn [length].
  replace (S (length M + 1)) with (length M + 1 * 2)%nat by lia.
  by rewrite Nat.Div0.mod_add.
Qed.

Lemma mirror_pairs_occurrences S s :
  NoDup S →
  occurrences s (mirror_pairs S) = if decide (s ∈ S) then 1%nat else 0%nat.
Proof.
  unfold occurrences.
  induction S as [| x | x M y IH] using list_ends_ind; intros Hnd.
  - rewrite decide_False; [done|]. apply not_elem_of_nil.
  - rewrite mirror_pairs_one, filter_cons, filter_nil.
    unfold occurs at 1. cbn [fst snd].
    destruct (decide (s = x)) as [->|Hne].
    + rewrite decide_True by (by left).
      rewrite decide_True by (by apply list_elem_of_singleton). done.
    + rewrite decide_False by (intros [?|?]; done).
      rewrite decide_False by (by rewrite list_elem_of_singleton). done.
  - apply NoDup_ends in Hnd as (Hxy & Hx & Hy & Hnd).
    rewrite mirror_pairs_ends, filter_cons.
    unfold occurs at 1. cbn [fst snd].
    destruct (decide (s = x ∨ s = y)) as [Hs|Hs]; cbn [length];
      rewrite (IH Hnd).
    + rewrite (decide_False (P := s ∈ M)) by (destruct Hs; by subst).
      rewrite decide_True; [done|].
      rewrite elem_of_cons, elem_of_app, list_elem_of_singleton. tauto.
    + assert (s ≠ x ∧ s ≠ y) as [? ?] by tauto.
      destruct (decide (s ∈ M)) as [Hin|Hin].
      * rewrite decide_True; [done|].
        rewrite elem_of_cons, elem_of_app. tauto.
      * rewrite decide_False; [done|].
        rewrite elem_of_cons, elem_of_app, list_elem_of_singleton. tauto.
Qed.

(** ** The station universe and the reachable engine states *)

Lemma STATIONS_sorted : StronglySorted Z.lt STATIONS.
Proof. refine (bool_decide_unpack _ _). by vm_compute. Qed.

Lemma STATIONS_NoDup : NoDup STATIONS.
Proof. apply lt_sorted_NoDup, STATIONS_sorted. Qed.

Lemma elem_of_STATIONS s : s ∈ STATIONS ↔ 1 ≤ s ≤ 20.
Proof.
  split.
  - intros Hs. assert (Forall (λ s, 1 ≤ s ≤ 20) STATIONS) as Hall.
    { refine (bool_decide_unpack _ _). by vm_compute. }
    rewrite Forall_forall in Hall. auto.
  - intros Hs. unfold STATIONS, range2, range.
    apply list_elem_of_fmap. exists (s - 1). split; [lia|].
    apply list_elem_of_fmap. exists (Z.to_nat (s - 1)). split; [lia|].
    apply elem_of_seq. lia.
Qed.

Lemma stored_sorted_insert m line xs :
  stored_sorted m → stored_sorted (<[line := sorted (list_set xs)]> m).
Proof.
  intros Hm line' l. rewrite lookup_insert. case_decide.
  - intros [= <-]. apply sorted_list_set_lt.
  - apply Hm.
Qed.

Lemma stored_sorted_default m line :
  stored_sorted m → StronglySorted Z.lt (default [] (m !! line)).
Proof.
  intros Hm. destruct (m !! line) as [l|] eqn:Hl; cbn; [eauto|constructor].
Qed.

Lemma reachable_inv self :
  reachable self →
  lines self = LINES ∧ stations self = STATIONS ∧
  stored_sorted (non_operational_stations self) ∧
  stored_sorted (fixed_stations self).
Proof.
  induction 1 as [|self line sts _ (Hl & Hs & Hn & Hf)
                  |self line sts _ (Hl & Hs & Hn & Hf)]; cbn.
  - repeat split; intros ?? Hm; by rewrite lookup_empty in Hm.
  - repeat split; auto using stored_sorted_insert.
  - repeat split; auto using stored_sorted_insert.
Qed.

Lemma reachable_stations self : reachable self → stations self = STATIONS.
Proof. intros H. by apply reachable_inv in H as (_ & ? & _). Qed.

Lemma odd_mod2 (n : nat) : Nat.odd n = bool_decide (n mod 2 ≠ 0)%nat.
Proof.
  pose proof (Nat.div_mod_eq n 2) as Hn.
  pose proof (Nat.mod_upper_bound n 2) as Hm.
  remember (n / 2)%nat as h. remember (n mod 2)%nat as m.
  rewrite Hn, Nat.add_comm, Nat.odd_add_mul_2.
  destruct m as [|[|m]]; [done..|lia].
Qed.

(** ** The scenarios of the specification, as the code runs them *)

Example scenario_A : generate_pairs init "B" = Some full_pairing.
Proof. by vm_compute. Qed.

Example scenario_B :
  get_operational_stations (set_non_operational init "L" [5; 15]) "L" =
    [1; 2; 3; 4; 6; 7; 8; 9; 10; 11; 12; 13; 14; 16; 17; 18; 19; 20] ∧
  generate_pairs (set_non_operational init "L" [5; 15]) "L" =
    Some ["1-20"; "2-19"; "3-18"; "4-17"; "6-16";
          "7-14"; "8-13"; "9-12"; "10-11"].
Proof. by vm_compute. Qed.

Example scenario_C :
  generate_pairs (set_fixed init "C" [3; 7]) "C" =
    Some ["3-3"; "7-7"; "1-20"; "2-19"; "4-18"; "5-17"; "6-16";
          "8-15"; "9-14"; "10-13"; "11-12"].
Proof. by vm_compute. Qed.

Example scenario_E :
  generate_pairs (set_non_operational init "O" (range2 1 21)) "O" = Some [].
Proof. by vm_compute. Qed.

(** An odd count ends with the self-pair of the middle station, and
    stations outside the universe are kept by [mirror_pair] itself. *)
Example mirror_pair_odd : mirror_pair [5; -3; 2; 5] = Some ["-3-5"; "2-2"].
Proof. by vm_compute. Qed.

(** * The claims *)

(** C1. [mirror_pair] deduplicates and sorts its input into a strictly
    ascending sequence [S] of length [n] and returns the labels of
    [(S[i], S[n-1-i])] for [i = 0 .. n/2 - 1], followed by the self-pair
    of the middle element [S[n/2]] when [n] is odd.  In particular, on a
    line other than C with no unavailable station, [generate_pairs]
    returns the ten labels 1-20, 2-19, ..., 10-11. *)
Theorem C1_mirror_pair_emits :
  (∀ xs : list Z, ∃ S : list Z,
     StronglySorted Z.lt S ∧ (∀ x, x ∈ S ↔ x ∈ xs) ∧
     let n := length S in
     (∀ i, (i < n / 2)%nat → S !!! i < S !!! (n - 1 - i)%nat) ∧
     mirror_pair xs = Some (
       ((λ i, label (S !!! i) (S !!! (n - 1 - i)%nat))
          <$> seq 0 (n / 2)%nat) ++
       (if Nat.odd n
        then [label (S !!! (n / 2)%nat) (S !!! (n / 2)%nat)] else [])))
  ∧
  (∀ self line,
     stations self = STATIONS → line ≠ "C" →
     default [] (non_operational_stations self !! line) = [] →
     generate_pairs self line =
       Some ["1-20"; "2-19"; "3-18"; "4-17"; "5-16";
             "6-15"; "7-14"; "8-13"; "9-12"; "10-11"]).
Proof.
  split.
  - intros xs. exists (sorted (list_set xs)).
    split; [apply sorted_list_set_lt|].
    split; [intros x; apply sorted_list_set_elem|].
    cbn zeta. split.
    { intros i Hi. pose proof (sorted_list_set_lt xs) as Hlt.
      remember (sorted (list_set xs)) as sq eqn:Hsq.
      pose proof (Nat.div_mod_eq (length sq) 2) as Hn.
      apply lt_sorted_lookup; [done|lia..]. }
    rewrite mirror_pair_render. unfold mirror_pairs. cbn zeta.
    rewrite odd_mod2, fmap_app, <-list_fmap_compose.
    by destruct (bool_decide _).
  - intros self line Hst Hline Hno.
    unfold generate_pairs, get_operational_stations.
    rewrite bool_decide_false by done. rewrite Hst, Hno.
    by vm_compute.
Qed.

Lemma C1_mirror_pair_emits_witness :
  generate_pairs init "B" =
    Some ["1-20"; "2-19"; "3-18"; "4-17"; "5-16";
          "6-15"; "7-14"; "8-13"; "9-12"; "10-11"].
Proof.
  apply (proj2 C1_mirror_pair_emits init "B");
    [reflexivity | discriminate | reflexivity].
Defined.

(** ** Lines other than C *)

Lemma get_operational_stations_filter self line :
  stations self = STATIONS →
  get_operational_stations self line =
  filter (λ s, ¬ py_in s (default [] (non_operational_stations self !! line)))
         STATIONS.
Proof.
  intros Hst. unfold get_operational_stations. rewrite Hst.
  apply sorted_id, lt_sorted_le, filter_lt_sorted, STATIONS_sorted.
Qed.

Lemma get_operational_stations_lt self line :
  stations self = STATIONS →
  StronglySorted Z.lt (get_operational_stations self line).
Proof.
  intros Hst. rewrite get_operational_stations_filter by done.
  apply filter_lt_sorted, STATIONS_sorted.
Qed.

Lemma py_in_spec s l : py_in s l ↔ s ∈ l.
Proof. unfold py_in. apply bool_decide_spec. Qed.

Lemma elem_of_get_operational_stations self line s :
  stations self = STATIONS →
  s ∈ get_operational_stations self line ↔
  s ∈ STATIONS ∧ s ∉ default [] (non_operational_stations self !! line).
Proof.
  intros Hst. rewrite get_operational_stations_filter by done.
  rewrite list_elem_of_filter, py_in_spec. tauto.
Qed.

Lemma mirror_pair_nil : mirror_pair [] = Some [].
Proof. by vm_compute. Qed.

Lemma generate_pairs_other self line :
  line ≠ "C" →
  generate_pairs self line = mirror_pair (get_operational_stations self line).
Proof.
  intros Hline. unfold generate_pairs. rewrite bool_decide_false by done.
  destruct (get_operational_stations self line); [|done].
  by rewrite mirror_pair_nil.
Qed.

Lemma mirror_pair_sorted S :
  StronglySorted Z.lt S → mirror_pair S = Some (render <$> mirror_pairs S).
Proof. intros HS. by rewrite mirror_pair_render, sorted_list_set_id. Qed.

(** C2. On a line other than C whose operable set (the universe minus the
    line's unavailable stations) has [n > 0] elements, [generate_pairs]
    returns the labels of [ceil(n/2)] pairs, one of them a self-pair when
    [n] is odd and none when [n] is even, and every operable station
    occurs in exactly one of the pairs; no other station occurs. *)
Theorem C2_other_lines_partition self line (n : nat) :
  reachable self → line ≠ "C" →
  let operable : gset Z :=
    list_to_set (stations self) ∖
    list_to_set (default [] (non_operational_stations self !! line)) in
  size operable = n → (0 < n)%nat →
  ∃ ps : list (Z * Z),
    generate_pairs self line = Some (render <$> ps) ∧
    (∀ qs, generate_pairs self line = Some (render <$> qs) → qs = ps) ∧
    length ps = ((n + 1) / 2)%nat ∧
    length (filter self_pair ps) = (if Nat.odd n then 1 else 0)%nat ∧
    (∀ s, s ∈ operable → occurrences s ps = 1%nat) ∧
    (∀ s, s ∉ operable → occurrences s ps = 0%nat).
Proof.
  intros Hre Hline operable Hn Hpos.
  pose proof (reachable_stations _ Hre) as Hst.
  pose proof (get_operational_stations_lt self line Hst) as Hops.
  set (ops := get_operational_stations self line) in *.
  assert (∀ s, s ∈ ops ↔ s ∈ operable) as Hel.
  { intros s. unfold ops, operable.
    rewrite elem_of_get_operational_stations by done.
    rewrite elem_of_difference, !elem_of_list_to_set. by rewrite Hst. }
  assert (operable = list_to_set ops) as Hset.
  { apply set_eq. intros s. by rewrite elem_of_list_to_set, Hel. }
  assert (length ops = n) as Hlen.
  { rewrite <-Hn, Hset. symmetry. apply size_list_to_set.
    by apply lt_sorted_NoDup. }
  assert (generate_pairs self line = Some (render <$> mirror_pairs ops))
    as Hgen.
  { rewrite generate_pairs_other by done. by apply mirror_pair_sorted. }
  exists (mirror_pairs ops). split; [|split; [|split; [|split; [|split]]]].
  - done.
  - intros qs Hqs. rewrite Hgen in Hqs. injection Hqs as Hqs.
    symmetry. by apply render_fmap_inj.
  - by rewrite mirror_pairs_length, Hlen.
  - rewrite mirror_pairs_self by (by apply lt_sorted_NoDup).
    rewrite Hlen, odd_mod2.
    pose proof (Nat.mod_upper_bound n 2). case_bool_decide; lia.
  - intros s Hs. rewrite mirror_pairs_occurrences by (by apply lt_sorted_NoDup).
    rewrite decide_True; [done|]. by apply Hel.
  - intros s Hs. rewrite mirror_pairs_occurrences by (by apply lt_sorted_NoDup).
    rewrite decide_False; [done|]. by rewrite Hel.
Qed.

Lemma C2_other_lines_partition_witness :
  let self := set_non_operational init "B" [5; 15] in
  let operable : gset Z :=
    list_to_set (stations self) ∖
    list_to_set (default [] (non_operational_stations self !! "B")) in
  ∃ ps : list (Z * Z),
    generate_pairs self "B" = Some (render <$> ps) ∧
    (∀ qs, generate_pairs self "B" = Some (render <$> qs) → qs = ps) ∧
    length ps = 9%nat ∧
    length (filter self_pair ps) = 0%nat ∧
    (∀ s, s ∈ operable → occurrences s ps = 1%nat) ∧
    (∀ s, s ∉ operable → occurrences s ps = 0%nat).
Proof.
  apply (C2_other_lines_partition
           (set_non_operational init "B" [5; 15]) "B" 18).
  - apply reachable_set_non_operational, reachable_init.
  - discriminate.
  - vm_compute. reflexivity.
  - lia.
Defined.

(** ** Line C *)

Lemma mirror_pairs_empty l : mirror_pairs l = [] → l = [].
Proof.
  intros Hl. apply (f_equal length) in Hl.
  rewrite mirror_pairs_length in Hl. cbn [length] in Hl.
  destruct l as [|x l]; [done|]. exfalso. cbn [length] in Hl.
  assert (1 ≤ (S (length l) + 1) / 2)%nat; [|lia].
  apply Nat.div_le_lower_bound; lia.
Qed.

(** The shape of [generate_pairs] on line C, with the pairs still
    unrendered. *)
Lemma generate_pairs_C self :
  let fixed := filter (λ s, py_in s (stations self))
                      (default [] (fixed_stations self !! "C")) in
  let remainder :=
    filter (λ s, ¬ py_in s fixed
                 ∧ ¬ py_in s (default [] (non_operational_stations self !! "C")))
           (stations self) in
  generate_pairs self "C" =
  Some (((λ s, label s s) <$> fixed) ++
        (render <$> mirror_pairs (sorted (list_set remainder)))).
Proof.
  intros fixed remainder. unfold generate_pairs.
  rewrite bool_decide_true by done. cbn zeta. fold fixed. fold remainder.
  destruct remainder as [|r remainder'] eqn:Hr.
  - destruct fixed as [|f fixed']; cbn [is_empty andb negb]; [done|].
    change (sorted (list_set [])) with (@nil Z).
    by rewrite mirror_pairs_nil, fmap_nil, app_nil_r.
  - cbn [is_empty andb negb]. by rewrite mirror_pair_render.
Qed.

(** C3. On line C of a reachable engine, [generate_pairs] returns one
    self-pair label for each station of [fixed], the stored fixed set of C
    restricted to the universe, in ascending order; after them the mirror
    pairs of [remainder], the universe without [fixed] and without the
    unavailable stations of C, when that is non-empty; and the result is
    empty exactly when [fixed] and [remainder] both are.  With fixed
    stations 3 and 7 and nothing unavailable the result is 3-3, 7-7 and
    the nine mirror pairs of the other eighteen stations. *)
Theorem C3_special_line :
  (∀ self, reachable self →
     let fixed_set := default [] (fixed_stations self !! "C") in
     let unavailable := default [] (non_operational_stations self !! "C") in
     ∃ fixed remainder mirrored : _,
       StronglySorted Z.lt fixed ∧
       (∀ s, s ∈ fixed ↔ s ∈ fixed_set ∧ s ∈ STATIONS) ∧
       StronglySorted Z.lt remainder ∧
       (∀ s, s ∈ remainder ↔
               s ∈ STATIONS ∧ (s ∉ fixed) ∧ (s ∉ unavailable)) ∧
       mirror_pair remainder = Some mirrored ∧
       (remainder = [] → mirrored = []) ∧
       generate_pairs self "C" =
         Some (((λ s, label s s) <$> fixed) ++ mirrored) ∧
       (generate_pairs self "C" = Some [] ↔ fixed = [] ∧ remainder = []))
  ∧
  (∀ self,
     stations self = STATIONS →
     fixed_stations self !! "C" = Some [3; 7] →
     default [] (non_operational_stations self !! "C") = [] →
     generate_pairs self "C" =
       Some ["3-3"; "7-7"; "1-20"; "2-19"; "4-18"; "5-17"; "6-16";
             "8-15"; "9-14"; "10-13"; "11-12"]).
Proof.
  split.
  - intros self Hre fixed_set unavailable.
    apply reachable_inv in Hre as (_ & Hst & Hno & Hfx).
    pose proof (generate_pairs_C self) as Hgen. cbn zeta in Hgen.
    rewrite Hst in Hgen. fold fixed_set unavailable in Hgen.
    set (fixed := filter (λ s, py_in s STATIONS) fixed_set) in *.
    set (remainder := filter (λ s, ¬ py_in s fixed ∧ ¬ py_in s unavailable)
                             STATIONS) in *.
    assert (StronglySorted Z.lt remainder) as Hrem
      by apply filter_lt_sorted, STATIONS_sorted.
    rewrite (sorted_list_set_id remainder Hrem) in Hgen.
    exists fixed, remainder, (render <$> mirror_pairs remainder).
    split; [|split; [|split; [|split; [|split; [|split; [|split]]]]]].
    + by apply filter_lt_sorted, stored_sorted_default.
    + intros s. unfold fixed.
      rewrite list_elem_of_filter, py_in_spec. tauto.
    + done.
    + intros s. unfold remainder.
      rewrite list_elem_of_filter, !py_in_spec. tauto.
    + by apply mirror_pair_sorted.
    + by intros ->.
    + done.
    + rewrite Hgen. split.
      * intros [= Happ]. apply app_eq_nil in Happ as [Hf Hm].
        apply fmap_nil_inv in Hf. apply fmap_nil_inv in Hm.
        split; [done|]. by apply mirror_pairs_empty.
      * by intros [-> ->].
  - intros self Hst Hfx Hno. unfold generate_pairs.
    rewrite bool_decide_true by done. rewrite Hst, Hfx, Hno.
    by vm_compute.
Qed.

Lemma C3_special_line_witness :
  let self := set_fixed init "C" [7; 3] in
  (∃ fixed remainder mirrored : _,
     StronglySorted Z.lt fixed ∧
     (∀ s, s ∈ fixed ↔
             s ∈ default [] (fixed_stations self !! "C") ∧ s ∈ STATIONS) ∧
     StronglySorted Z.lt remainder ∧
     (∀ s, s ∈ remainder ↔
             s ∈ STATIONS ∧ (s ∉ fixed) ∧
             (s ∉ default [] (non_operational_stations self !! "C"))) ∧
     mirror_pair remainder = Some mirrored ∧
     (remainder = [] → mirrored = []) ∧
     generate_pairs self "C" =
       Some (((λ s, label s s) <$> fixed) ++ mirrored) ∧
     (generate_pairs self "C" = Some [] ↔ fixed = [] ∧ remainder = []))
  ∧
  generate_pairs self "C" =
    Some ["3-3"; "7-7"; "1-20"; "2-19"; "4-18"; "5-17"; "6-16";
          "8-15"; "9-14"; "10-13"; "11-12"].
Proof.
  split.
  - apply (proj1 C3_special_line (set_fixed init "C" [7; 3])).
    apply reachable_set_fixed, reachable_init.
  - apply (proj2 C3_special_line (set_fixed init "C" [7; 3]));
      [reflexivity | by vm_compute | reflexivity].
Defined.

(** C4. [mirror_pair] depends only on the set of its input: two
    collections with the same stations, in any order and with any
    repetition, give the same list of labels. *)
Theorem C4_mirror_pair_order_independent (xs ys : list Z) :
  (∀ x, x ∈ xs ↔ x ∈ ys) → mirror_pair xs = mirror_pair ys.
Proof.
  intros Hel. rewrite !mirror_pair_render. do 3 f_equal.
  apply lt_sorted_ext; [apply sorted_list_set_lt..|].
  intros x. by rewrite !sorted_list_set_elem.
Qed.

Lemma C4_mirror_pair_order_independent_witness :
  mirror_pair [4; 1; 9; 4; 6] = mirror_pair [6; 9; 1; 1; 4].
Proof.
  apply C4_mirror_pair_order_independent.
  intros x. rewrite !elem_of_cons, !elem_of_nil. tauto.
Defined.

(** ** The engine never fails *)

Lemma generate_pairs_total self line : is_Some (generate_pairs self line).
Proof.
  destruct (decide (line = "C")) as [->|Hline].
  - rewrite generate_pairs_C. eauto.
  - rewrite generate_pairs_other by done. apply mirror_pair_total.
Qed.

Lemma schedule_loop_total self codes schedule_data :
  is_Some (schedule_loop self codes schedule_data).
Proof.
  revert schedule_data. induction codes as [|code codes IH]; intros sd; cbn.
  - eauto.
  - destruct (generate_pairs_total self code) as [ps ->]. cbn. apply IH.
Qed.

Lemma generate_schedule_total self date_str :
  is_Some (generate_schedule self date_str).
Proof.
  unfold generate_schedule.
  destruct (schedule_loop_total self (lines self) ∅) as [sd ->]. cbn. eauto.
Qed.

(** ** Validation *)

Lemma validate_line_c_configuration_overlap ss :
  let common : gset Z :=
    list_to_set (accommodation_c ss) ∩
    list_to_set (default [] (non_operational ss !! "C")) in
  common ≠ ∅ →
  validate_line_c_configuration ss =
  inl (overlap_message (sorted (elements common))).
Proof.
  intros common Hne. unfold validate_line_c_configuration.
  fold common. by rewrite bool_decide_true.
Qed.

Lemma validate_line_c_configuration_disjoint ss :
  (∀ s, s ∈ accommodation_c ss →
        s ∉ default [] (non_operational ss !! "C")) →
  validate_line_c_configuration ss = inr tt.
Proof.
  intros Hdis. unfold validate_line_c_configuration.
  rewrite bool_decide_false; [done|]. intros Hne. apply Hne.
  apply set_eq. intros s.
  rewrite elem_of_intersection, !elem_of_list_to_set.
  split; [|by intros ?%not_elem_of_empty]. intros [Ha Hu]. by destruct (Hdis s).
Qed.

(** C5. When the fixed stations and the unavailable stations of line C
    share a station, validation rejects the configuration with an error
    that lists the shared stations in ascending order, and the submitted
    branch of [main] ends there: no engine is configured and no schedule
    generated.  The engine has no such check of its own: configured with
    the same overlapping sets it still returns pairs for every line and a
    schedule, and a shared station of the universe is among the self-pairs
    of line C. *)
Theorem C5_overlap_rejected (ss : session) (date_str : string) :
  let fixed := accommodation_c ss in
  let unavailable := default [] (non_operational ss !! "C") in
  let engine := set_fixed (configure_lines ss init) "C" fixed in
  (∃ s, s ∈ fixed ∧ s ∈ unavailable) →
  (∃ offending : list Z,
     offending ≠ [] ∧ StronglySorted Z.lt offending ∧
     (∀ s, s ∈ offending ↔ s ∈ fixed ∧ s ∈ unavailable) ∧
     validate_line_c_configuration ss = inl (overlap_message offending) ∧
     main_submitted ss date_str = Some (Rejected (overlap_message offending)))
  ∧ (∀ line, is_Some (generate_pairs engine line))
  ∧ is_Some (generate_schedule engine date_str)
  ∧ (∀ s, s ∈ fixed → s ∈ unavailable → s ∈ STATIONS →
          ∃ out, generate_pairs engine "C" = Some out ∧ label s s ∈ out).
Proof.
  intros fixed unavailable engine (s0 & Hs0f & Hs0u).
  set (common := (list_to_set fixed ∩ list_to_set unavailable : gset Z)).
  assert (∀ s, s ∈ common ↔ s ∈ fixed ∧ s ∈ unavailable) as Hcommon.
  { intros s. unfold common.
    by rewrite elem_of_intersection, !elem_of_list_to_set. }
  assert (common ≠ ∅) as Hne.
  { intros He. apply (not_elem_of_empty (C := gset Z) s0).
    rewrite <-He. by apply Hcommon. }
  pose proof (validate_line_c_configuration_overlap ss Hne) as Hval.
  fold fixed unavailable common in Hval.
  split; [|split; [|split]].
  - exists (sorted (elements common)). split; [|split; [|split; [|split]]].
    + intros Hnil. apply (not_elem_of_nil s0). rewrite <-Hnil.
      by rewrite sorted_elem, elem_of_elements, Hcommon.
    + apply le_sorted_NoDup_lt; [apply sorted_le|].
      rewrite sorted_perm. apply NoDup_elements.
    + intros s. by rewrite sorted_elem, elem_of_elements, Hcommon.
    + done.
    + unfold main_submitted. by rewrite Hval.
  - intros line. apply generate_pairs_total.
  - apply generate_schedule_total.
  - intros s Hf _ Hst. rewrite generate_pairs_C. eexists. split; [done|].
    apply elem_of_app. left.
    apply (list_elem_of_fmap_2 (λ s, label s s)).
    apply list_elem_of_filter. split; [by apply py_in_spec|].
    unfold engine. cbn [fixed_stations set_fixed].
    rewrite lookup_insert_eq. cbn [default].
    by apply sorted_list_set_elem.
Qed.

Lemma C5_overlap_rejected_witness :
  let ss := mkSession {[ "C" := [5] ]} [5] in
  let fixed := accommodation_c ss in
  let unavailable := default [] (non_operational ss !! "C") in
  let engine := set_fixed (configure_lines ss init) "C" fixed in
  (∃ offending : list Z,
     offending ≠ [] ∧ StronglySorted Z.lt offending ∧
     (∀ s, s ∈ offending ↔ s ∈ fixed ∧ s ∈ unavailable) ∧
     validate_line_c_configuration ss = inl (overlap_message offending) ∧
     main_submitted ss "11/03/2026" =
       Some (Rejected (overlap_message offending)))
  ∧ (∀ line, is_Some (generate_pairs engine line))
  ∧ is_Some (generate_schedule engine "11/03/2026")
  ∧ (∀ s, s ∈ fixed → s ∈ unavailable → s ∈ STATIONS →
          ∃ out, generate_pairs engine "C" = Some out ∧ label s s ∈ out).
Proof.
  apply (C5_overlap_rejected (mkSession {[ "C" := [5] ]} [5]) "11/03/2026").
  exists 5. split; apply list_elem_of_singleton; reflexivity.
Defined.

(** Scenario D as the code runs it. *)
Example scenario_D :
  main_submitted (mkSession {[ "C" := [5] ]} [5]) "11/03/2026" =
  Some (Rejected (overlap_message [5])).
Proof. by vm_compute. Qed.

(** Without an overlap the same branch goes on to the engine. *)
Lemma main_submitted_disjoint ss date_str :
  (∀ s, s ∈ accommodation_c ss →
        s ∉ default [] (non_operational ss !! "C")) →
  ∃ schedule_data,
    main_submitted ss date_str =
    Some (Scheduled
            (set_fixed (configure_lines ss init) "C" (accommodation_c ss))
            date_str schedule_data).
Proof.
  intros Hdis. unfold main_submitted.
  rewrite validate_line_c_configuration_disjoint by done.
  destruct (generate_schedule_total
              (set_fixed (configure_lines ss init) "C" (accommodation_c ss))
              date_str) as [[d sd] Hgen].
  rewrite Hgen. cbn. unfold generate_schedule in Hgen.
  destruct (schedule_loop _ _ _); simplify_eq/=. eauto.
Qed.

(** ** The setters *)

(** C6. [set_non_operational] and [set_fixed] store for the line the
    strictly ascending list of the distinct stations given, whatever their
    range; what was stored for the line before is gone, so that only the
    last call on a line counts; the entries of the other lines, the other
    dictionary and the universes are unchanged.  Both are total. *)
Theorem C6_setters_overwrite (self : ProductionRotation) (line : string)
    (sts : list Z) :
  let stored := sorted (list_set sts) in
  StronglySorted Z.lt stored ∧ (∀ s, s ∈ stored ↔ s ∈ sts) ∧
  (non_operational_stations (set_non_operational self line sts) !! line
     = Some stored ∧
   fixed_stations (set_fixed self line sts) !! line = Some stored) ∧
  (∀ prev,
     set_non_operational (set_non_operational self line prev) line sts
       = set_non_operational self line sts ∧
     set_fixed (set_fixed self line prev) line sts
       = set_fixed self line sts) ∧
  (∀ other, other ≠ line →
     non_operational_stations (set_non_operational self line sts) !! other
       = non_operational_stations self !! other ∧
     fixed_stations (set_fixed self line sts) !! other
       = fixed_stations self !! other) ∧
  (fixed_stations (set_non_operational self line sts) = fixed_stations self ∧
   non_operational_stations (set_fixed self line sts)
     = non_operational_stations self) ∧
  (stations (set_non_operational self line sts) = stations self ∧
   stations (set_fixed self line sts) = stations self ∧
   lines (set_non_operational self line sts) = lines self ∧
   lines (set_fixed self line sts) = lines self).
Proof.
  intros stored. split; [apply sorted_list_set_lt|].
  split; [intros s; apply sorted_list_set_elem|].
  split; [split; cbn; apply lookup_insert_eq|].
  split.
  { intros prev. unfold set_non_operational, set_fixed. cbn.
    by rewrite !insert_insert_eq. }
  split.
  { intros other Hne. cbn. by rewrite !lookup_insert_ne. }
  done.
Qed.

(** ** Fixed stations of the other lines *)

(** [generate_pairs] reads the universe, the unavailable stations and the
    fixed stations of line C, and nothing else. *)
Lemma generate_pairs_ext self1 self2 line :
  stations self1 = stations self2 →
  non_operational_stations self1 = non_operational_stations self2 →
  fixed_stations self1 !! "C" = fixed_stations self2 !! "C" →
  generate_pairs self1 line = generate_pairs self2 line.
Proof.
  intros Hst Hno Hfx. unfold generate_pairs, get_operational_stations.
  by rewrite Hst, Hno, Hfx.
Qed.

(** C7. The fixed stations of a line other than C do not show in the
    pairing: [set_fixed] on such a line changes no result of
    [generate_pairs], and two engines that differ only in the fixed
    stations of lines other than C return the same pairs for every line. *)
Theorem C7_fixed_other_lines_unobservable :
  (∀ self other sts line,
     other ≠ "C" →
     generate_pairs (set_fixed self other sts) line
       = generate_pairs self line)
  ∧
  (∀ self1 self2,
     lines self1 = lines self2 → stations self1 = stations self2 →
     non_operational_stations self1 = non_operational_stations self2 →
     fixed_stations self1 !! "C" = fixed_stations self2 !! "C" →
     ∀ line, generate_pairs self1 line = generate_pairs self2 line).
Proof.
  split.
  - intros self other sts line Hne. apply generate_pairs_ext; cbn; [done..|].
    by rewrite lookup_insert_ne.
  - intros self1 self2 _ Hst Hno Hfx line. by apply generate_pairs_ext.
Qed.

Lemma C7_fixed_other_lines_unobservable_witness :
  (∀ line, generate_pairs (set_fixed init "B" [1; 2; 3]) line
             = generate_pairs init line)
  ∧
  (∀ line,
     generate_pairs (set_fixed (set_fixed init "C" [4]) "M" [1; 20]) line
       = generate_pairs (set_fixed (set_fixed init "N" [7]) "C" [4]) line).
Proof.
  split.
  - intros line.
    apply (proj1 C7_fixed_other_lines_unobservable init "B" [1; 2; 3] line).
    discriminate.
  - apply (proj2 C7_fixed_other_lines_unobservable
             (set_fixed (set_fixed init "C" [4]) "M" [1; 20])
             (set_fixed (set_fixed init "N" [7]) "C" [4]));
      reflexivity.
Defined.

(** ** Operable stations *)

(** C8. [get_operational_stations] returns, in ascending order, exactly
    the stations of the universe that are not unavailable on the line, and
    leaves the engine as it is (it is a function of the state); and on a
    line other than C on which every station of the universe is
    unavailable, [generate_pairs] returns the empty list. *)
Theorem C8_operable_stations :
  (∀ self line,
     reachable self →
     let ops := get_operational_stations self line in
     StronglySorted Z.lt ops ∧
     (∀ s, s ∈ ops ↔
             s ∈ STATIONS ∧
             (s ∉ default [] (non_operational_stations self !! line))))
  ∧
  (∀ self line,
     reachable self → line ≠ "C" →
     (∀ s, s ∈ STATIONS →
           s ∈ default [] (non_operational_stations self !! line)) →
     get_operational_stations self line = [] ∧
     generate_pairs self line = Some []).
Proof.
  split.
  - intros self line Hre ops. apply reachable_stations in Hre.
    split; [by apply get_operational_stations_lt|].
    intros s. by apply elem_of_get_operational_stations.
  - intros self line Hre Hline Hall. apply reachable_stations in Hre.
    assert (get_operational_stations self line = []) as Hops.
    { apply elem_of_nil_inv. intros s.
      rewrite elem_of_get_operational_stations by done.
      intros [Hs Hn]. by apply Hn, Hall. }
    split; [done|].
    by rewrite generate_pairs_other, Hops, mirror_pair_nil.
Qed.

Lemma C8_operable_stations_witness :
  (let self := set_non_operational init "M" [2; 40; 2; 19] in
   let ops := get_operational_stations self "M" in
   StronglySorted Z.lt ops ∧
   (∀ s, s ∈ ops ↔
           s ∈ STATIONS ∧
           (s ∉ default [] (non_operational_stations self !! "M"))))
  ∧
  (let self := set_non_operational init "N" (range2 1 21) in
   get_operational_stations self "N" = [] ∧
   generate_pairs self "N" = Some []).
Proof.
  split.
  - apply (proj1 C8_operable_stations
             (set_non_operational init "M" [2; 40; 2; 19]) "M").
    apply reachable_set_non_operational, reachable_init.
  - apply (proj2 C8_operable_stations
             (set_non_operational init "N" (range2 1 21)) "N").
    + apply reachable_set_non_operational, reachable_init.
    + discriminate.
    + intros s Hs.
      change (s ∈ sorted (list_set (range2 1 21))).
      apply sorted_list_set_elem. exact Hs.
Defined.

(** ** Lines that were never configured *)

Lemma run_snoc calls c : run (calls ++ [c]) = do_call (run calls) c.
Proof. unfold run. by rewrite foldl_app. Qed.

Lemma reachable_run calls : reachable (run calls).
Proof.
  induction calls as [|c calls IH] using rev_ind; [apply reachable_init|].
  rewrite run_snoc. destruct c; cbn; by constructor.
Qed.

Lemma reachable_is_run self : reachable self → ∃ calls, self = run calls.
Proof.
  induction 1 as [|self line sts _ [calls ->]|self line sts _ [calls ->]].
  - by exists [].
  - exists (calls ++ [CallSetNonOperational line sts]). by rewrite run_snoc.
  - exists (calls ++ [CallSetFixed line sts]). by rewrite run_snoc.
Qed.

(** A line named in no call has no entry in either dictionary. *)
Lemma run_untouched calls line :
  (∀ c, c ∈ calls → call_line c ≠ line) →
  non_operational_stations (run calls) !! line = None ∧
  fixed_stations (run calls) !! line = None.
Proof.
  induction calls as [|c calls IH] using rev_ind; intros Hc.
  - split; apply lookup_empty.
  - rewrite run_snoc.
    destruct IH as [IHn IHf].
    { intros c' Hc'. apply Hc, elem_of_app. by left. }
    assert (call_line c ≠ line) as Hne.
    { apply Hc, elem_of_app. right. by apply list_elem_of_singleton. }
    destruct c as [l sts|l sts]; cbn in *; by rewrite lookup_insert_ne.
Qed.

Lemma generate_pairs_unconfigured self line :
  stations self = STATIONS →
  non_operational_stations self !! line = None →
  fixed_stations self !! line = None →
  get_operational_stations self line = range2 1 21 ∧
  generate_pairs self line = Some full_pairing.
Proof.
  intros Hst Hno Hfx. split.
  - unfold get_operational_stations. rewrite Hst, Hno. by vm_compute.
  - destruct (decide (line = "C")) as [->|Hline].
    + unfold generate_pairs. rewrite bool_decide_true by done.
      rewrite Hst, Hno, Hfx. by vm_compute.
    + unfold generate_pairs, get_operational_stations.
      rewrite bool_decide_false by done. rewrite Hst, Hno. by vm_compute.
Qed.

(** C9. A line that no setter call has named has no entry in either
    dictionary, and the lookup falls back to the empty list: on a fresh
    engine, and after any calls that name other lines only,
    [get_operational_stations] returns the whole universe 1..20 in
    ascending order and [generate_pairs] the mirror pairing of the whole
    universe, on line C too, where no self-pair comes first. *)
Theorem C9_unconfigured_line (calls : list call) (line : string) :
  (∀ c, c ∈ calls → call_line c ≠ line) →
  let self := run calls in
  non_operational_stations self !! line = None ∧
  fixed_stations self !! line = None ∧
  get_operational_stations self line =
    [1; 2; 3; 4; 5; 6; 7; 8; 9; 10; 11; 12; 13; 14; 15; 16; 17; 18; 19; 20] ∧
  generate_pairs self line =
    Some ["1-20"; "2-19"; "3-18"; "4-17"; "5-16";
          "6-15"; "7-14"; "8-13"; "9-12"; "10-11"].
Proof.
  intros Hc self. destruct (run_untouched calls line Hc) as [Hno Hfx].
  pose proof (reachable_stations _ (reachable_run calls)) as Hst.
  destruct (generate_pairs_unconfigured self line Hst Hno Hfx) as [Hops Hgen].
  by repeat split.
Qed.

Lemma C9_unconfigured_line_witness :
  let self := run [CallSetNonOperational "B" [1; 2]; CallSetFixed "L" [3]] in
  non_operational_stations self !! "C" = None ∧
  fixed_stations self !! "C" = None ∧
  get_operational_stations self "C" =
    [1; 2; 3; 4; 5; 6; 7; 8; 9; 10; 11; 12; 13; 14; 15; 16; 17; 18; 19; 20] ∧
  generate_pairs self "C" =
    Some ["1-20"; "2-19"; "3-18"; "4-17"; "5-16";
          "6-15"; "7-14"; "8-13"; "9-12"; "10-11"].
Proof.
  apply (C9_unconfigured_line
           [CallSetNonOperational "B" [1; 2]; CallSetFixed "L" [3]] "C").
  intros c Hc. apply elem_of_cons in Hc as [->|Hc]; [discriminate|].
  apply list_elem_of_singleton in Hc as ->. discriminate.
Defined.

(** The fresh engine is the empty history. *)
Example fresh_engine_pairs :
  generate_pairs init "C" = Some full_pairing ∧
  generate_pairs init "O" = Some full_pairing.
Proof. by vm_compute. Qed.

(** ** The partition on line C *)

Lemma occurrences_app s ps qs :
  occurrences s (ps ++ qs) = (occurrences s ps + occurrences s qs)%nat.
Proof. unfold occurrences. by rewrite filter_app, length_app. Qed.

Lemma occurrences_selfs s l :
  NoDup l →
  occurrences s ((λ x, (x, x)) <$> l) = if decide (s ∈ l) then 1%nat else 0%nat.
Proof.
  unfold occurrences. induction 1 as [|x l Hx Hnd IH].
  - rewrite decide_False; [done|]. apply not_elem_of_nil.
  - rewrite fmap_cons, filter_cons. unfold occurs at 1. cbn [fst snd].
    destruct (decide (s = x ∨ s = x)) as [Hs|Hs]; cbn [length]; rewrite IH.
    + assert (s = x) as -> by tauto.
      rewrite (decide_False (P := x ∈ l)) by done.
      rewrite decide_True; [done|]. by left.
    + assert (s ≠ x) by tauto.
      destruct (decide (s ∈ l)).
      * rewrite decide_True; [done|]. by right.
      * rewrite decide_False; [done|]. rewrite elem_of_cons. tauto.
Qed.

Lemma selfs_self_pair l : Forall self_pair ((λ x : Z, (x, x)) <$> l).
Proof. apply Forall_fmap, Forall_forall. by intros x _. Qed.

(** C10. On line C of a reachable engine whose fixed stations and
    unavailable stations are disjoint, the result of [generate_pairs] is
    the labels of the fixed self-pairs followed by the mirror pairs of the
    remainder, and every station of the universe that is not unavailable
    occurs in exactly one of these pairs: in one self-pair and no mirror
    pair when it is fixed, in one mirror pair and no self-pair when it is
    not.  No station occurs in two pairs, and no other station occurs. *)
Theorem C10_special_line_partition (self : ProductionRotation) :
  reachable self →
  let fixed_set := default [] (fixed_stations self !! "C") in
  let unavailable := default [] (non_operational_stations self !! "C") in
  (∀ s, s ∈ fixed_set → s ∉ unavailable) →
  ∃ (selfs mirrored : list (Z * Z)) (remainder : list Z),
    generate_pairs self "C" = Some (render <$> (selfs ++ mirrored)) ∧
    (∀ qs, generate_pairs self "C" = Some (render <$> qs) →
           qs = selfs ++ mirrored) ∧
    Forall self_pair selfs ∧
    mirror_pair remainder = Some (render <$> mirrored) ∧
    (∀ s, s ∈ STATIONS → s ∉ unavailable →
       occurrences s (selfs ++ mirrored) = 1%nat ∧
       (s ∈ fixed_set →
          occurrences s selfs = 1%nat ∧ occurrences s mirrored = 0%nat) ∧
       (s ∉ fixed_set →
          occurrences s selfs = 0%nat ∧ occurrences s mirrored = 1%nat)) ∧
    (∀ s, (occurrences s (selfs ++ mirrored) ≤ 1)%nat) ∧
    (∀ s, occurrences s (selfs ++ mirrored) = 1%nat →
          s ∈ STATIONS ∧ (s ∉ unavailable)).
Proof.
  intros Hre fixed_set unavailable Hdis.
  apply reachable_inv in Hre as (_ & Hst & Hno & Hfx).
  pose proof (generate_pairs_C self) as Hgen. cbn zeta in Hgen.
  rewrite Hst in Hgen. fold fixed_set unavailable in Hgen.
  set (fixed := filter (λ s, py_in s STATIONS) fixed_set) in *.
  set (remainder := filter (λ s, ¬ py_in s fixed ∧ ¬ py_in s unavailable)
                           STATIONS) in *.
  assert (StronglySorted Z.lt remainder) as Hrem
    by apply filter_lt_sorted, STATIONS_sorted.
  assert (NoDup remainder) as Hrnd by by apply lt_sorted_NoDup.
  assert (NoDup fixed) as Hfnd.
  { apply lt_sorted_NoDup, filter_lt_sorted.
    by apply stored_sorted_default. }
  assert (∀ s, s ∈ fixed ↔ s ∈ fixed_set ∧ s ∈ STATIONS) as Hfel.
  { intros s. unfold fixed. rewrite list_elem_of_filter, py_in_spec. tauto. }
  assert (∀ s, s ∈ remainder ↔
                 s ∈ STATIONS ∧ (s ∉ fixed) ∧ (s ∉ unavailable)) as Hrel.
  { intros s. unfold remainder.
    rewrite list_elem_of_filter, !py_in_spec. tauto. }
  rewrite (sorted_list_set_id remainder Hrem) in Hgen.
  assert (∀ s, occurrences s (((λ x, (x, x)) <$> fixed)
                              ++ mirror_pairs remainder)
               = ((if decide (s ∈ fixed) then 1 else 0)
                  + (if decide (s ∈ remainder) then 1 else 0))%nat) as Hocc.
  { intros s. by rewrite occurrences_app, occurrences_selfs,
      mirror_pairs_occurrences. }
  assert (generate_pairs self "C" =
          Some (render <$> (((λ x, (x, x)) <$> fixed)
                            ++ mirror_pairs remainder))) as Hgen'.
  { rewrite Hgen, fmap_app, <-list_fmap_compose. done. }
  exists ((λ x, (x, x)) <$> fixed), (mirror_pairs remainder), remainder.
  split; [|split; [|split; [|split; [|split; [|split]]]]].
  - done.
  - intros qs Hqs. rewrite Hgen' in Hqs. injection Hqs as Hqs.
    symmetry. by apply render_fmap_inj.
  - apply selfs_self_pair.
  - by apply mirror_pair_sorted.
  - intros s Hs Hun. rewrite Hocc.
    rewrite occurrences_selfs, mirror_pairs_occurrences by done.
    destruct (decide (s ∈ fixed)) as [Hf|Hf].
    + rewrite (decide_False (P := s ∈ remainder))
        by (rewrite Hrel; tauto).
      split; [done|]. split; [done|]. intros Hnf.
      apply Hfel in Hf as [? _]. done.
    + rewrite (decide_True (P := s ∈ remainder)) by (by apply Hrel).
      split; [done|]. split; [|done]. intros Hin.
      destruct Hf. by apply Hfel.
  - intros s. rewrite Hocc.
    destruct (decide (s ∈ fixed)) as [Hf|Hf]; [|case_decide; lia].
    rewrite (decide_False (P := s ∈ remainder)) by (rewrite Hrel; tauto).
    lia.
  - intros s. rewrite Hocc.
    destruct (decide (s ∈ fixed)) as [Hf|Hf].
    + intros _. apply Hfel in Hf as [Hf Hs]. split; [done|]. by apply Hdis.
    + destruct (decide (s ∈ remainder)) as [Hr|Hr]; [|done].
      intros _. apply Hrel in Hr. tauto.
Qed.

Lemma C10_special_line_partition_witness :
  let self := set_non_operational (set_fixed init "C" [7; 3]) "C" [5; 12] in
  let fixed_set := default [] (fixed_stations self !! "C") in
  let unavailable := default [] (non_operational_stations self !! "C") in
  ∃ (selfs mirrored : list (Z * Z)) (remainder : list Z),
    generate_pairs self "C" = Some (render <$> (selfs ++ mirrored)) ∧
    (∀ qs, generate_pairs self "C" = Some (render <$> qs) →
           qs = selfs ++ mirrored) ∧
    Forall self_pair selfs ∧
    mirror_pair remainder = Some (render <$> mirrored) ∧
    (∀ s, s ∈ STATIONS → s ∉ unavailable →
       occurrences s (selfs ++ mirrored) = 1%nat ∧
       (s ∈ fixed_set →
          occurrences s selfs = 1%nat ∧ occurrences s mirrored = 0%nat) ∧
       (s ∉ fixed_set →
          occurrences s selfs = 0%nat ∧ occurrences s mirrored = 1%nat)) ∧
    (∀ s, (occurrences s (selfs ++ mirrored) ≤ 1)%nat) ∧
    (∀ s, occurrences s (selfs ++ mirrored) = 1%nat →
          s ∈ STATIONS ∧ (s ∉ unavailable)).
Proof.
  apply (C10_special_line_partition
           (set_non_operational (set_fixed init "C" [7; 3]) "C" [5; 12])).
  - apply reachable_set_non_operational, reachable_set_fixed, reachable_init.
  - intros s Hf Hu.
    assert (default [] (fixed_stations
              (set_non_operational (set_fixed init "C" [7; 3]) "C" [5; 12])
              !! "C") = [3; 7]) as Hfx by (by vm_compute).
    assert (default [] (non_operational_stations
              (set_non_operational (set_fixed init "C" [7; 3]) "C" [5; 12])
              !! "C") = [5; 12]) as Hno by (by vm_compute).
    rewrite Hfx in Hf. rewrite Hno in Hu.
    rewrite !elem_of_cons, elem_of_nil in Hf, Hu. lia.
Defined.

(** * Further properties of the code *)

(** ** The schedule *)

Lemma schedule_loop_lookup self codes acc :
  ∃ sd, schedule_loop self codes acc = Some sd ∧
        ∀ line, sd !! line =
                if decide (line ∈ codes) then generate_pairs self line
                else acc !! line.
Proof.
  revert acc. induction codes as [|code codes IH]; intros acc; cbn.
  { exists acc. split; [done|]. intros line.
    by rewrite decide_False by apply not_elem_of_nil. }
  destruct (generate_pairs_total self code) as [ps Hps]. rewrite Hps. cbn.
  destruct (IH (<[code := ps]> acc)) as (sd & -> & Hsd).
  exists sd. split; [done|]. intros line. rewrite Hsd.
  destruct (decide (line ∈ codes)) as [Hin|Hin].
  - rewrite decide_True; [done|]. by right.
  - destruct (decide (line = code)) as [->|Hne].
    + rewrite decide_True by (by left). by rewrite lookup_insert_eq.
    + rewrite decide_False by (rewrite elem_of_cons; tauto).
      by rewrite lookup_insert_ne.
Qed.

(** X1. [generate_schedule] never fails; it returns the date it was given
    and a dictionary whose keys are exactly the lines of the engine, each
    holding what [generate_pairs] returns for that line. *)
Theorem X1_generate_schedule_covers_lines (self : ProductionRotation)
    (date_str : string) :
  ∃ schedule_data,
    generate_schedule self date_str = Some (date_str, schedule_data) ∧
    (∀ line, line ∈ lines self →
             schedule_data !! line = generate_pairs self line) ∧
    (∀ line, line ∉ lines self → schedule_data !! line = None) ∧
    dom schedule_data = list_to_set (lines self).
Proof.
  unfold generate_schedule.
  destruct (schedule_loop_lookup self (lines self) ∅) as (sd & -> & Hsd).
  exists sd. cbn. split; [done|].
  assert (∀ line, line ∈ lines self → sd !! line = generate_pairs self line)
    as Hin.
  { intros line Hl. by rewrite Hsd, decide_True. }
  assert (∀ line, line ∉ lines self → sd !! line = None) as Hout.
  { intros line Hl. by rewrite Hsd, decide_False, lookup_empty. }
  split; [done|]. split; [done|].
  apply set_eq. intros line. rewrite elem_of_dom, elem_of_list_to_set.
  destruct (decide (line ∈ lines self)) as [Hl|Hl].
  - rewrite (Hin _ Hl). split; [done|]. intros _. apply generate_pairs_total.
  - rewrite (Hout _ Hl). split; [by intros [? ?]|done].
Qed.

(** ** The order of the mirror pairs *)

Lemma mirror_pairs_members l p :
  p ∈ mirror_pairs l → p.1 ∈ l ∧ p.2 ∈ l.
Proof.
  revert p. induction l as [| x | x M y IH] using list_ends_ind; intros p.
  - by intros ?%elem_of_nil.
  - rewrite mirror_pairs_one. intros ->%list_elem_of_singleton. cbn.
    split; by left.
  - rewrite mirror_pairs_ends. intros [->|Hp]%elem_of_cons; cbn.
    + split; [by left|]. right. apply elem_of_app. right. by left.
    + destruct (IH _ Hp). split; right; apply elem_of_app; by left.
Qed.

Lemma mirror_pairs_nested l :
  StronglySorted Z.lt l →
  StronglySorted Z.lt ((mirror_pairs l).*1) ∧
  StronglySorted (flip Z.lt) ((mirror_pairs l).*2) ∧
  Forall (λ p, p.1 ≤ p.2) (mirror_pairs l).
Proof.
  induction l as [| x | x M y IH] using list_ends_ind; intros Hl.
  - repeat split; constructor.
  - rewrite mirror_pairs_one. cbn. repeat split; by repeat constructor.
  - rewrite mirror_pairs_ends.
    apply StronglySorted_cons in Hl as [Hx Hl].
    rewrite Forall_forall in Hx.
    pose proof Hl as (Hy & HM & _)%StronglySorted_app.
    destruct (IH HM) as (Hfst & Hsnd & Hle).
    assert (x < y) as Hxy.
    { apply Hx, elem_of_app. right. by left. }
    cbn. split; [|split].
    + constructor; [done|]. apply Forall_forall.
      intros a (p & -> & Hp)%list_elem_of_fmap.
      apply Hx, elem_of_app. left. by apply mirror_pairs_members.
    + constructor; [done|]. apply Forall_forall.
      intros b (p & -> & Hp)%list_elem_of_fmap. unfold flip.
      apply Hy; [by apply mirror_pairs_members|by left].
    + constructor; [cbn; lia|done].
Qed.

(** X2. Whatever the input, [mirror_pair] lists its pairs from the
    outside in: the lower stations of the pairs are strictly ascending,
    the upper stations strictly descending, and in every pair the lower
    station is not above the upper one. *)
Theorem X2_mirror_pair_outside_in (xs : list Z) :
  ∃ ps : list (Z * Z),
    mirror_pair xs = Some (render <$> ps) ∧
    StronglySorted Z.lt (ps.*1) ∧
    StronglySorted (flip Z.lt) (ps.*2) ∧
    Forall (λ p, p.1 ≤ p.2) ps.
Proof.
  exists (mirror_pairs (sorted (list_set xs))).
  split; [apply mirror_pair_render|].
  apply mirror_pairs_nested, sorted_list_set_lt.
Qed.

(** X3. [mirror_pair] never raises on any list of integers, repeated or
    negative ones included: it returns [ceil(k/2)] labels, [k] being the
    number of distinct inputs, and none only for the empty input. *)
Theorem X3_mirror_pair_count (xs : list Z) :
  ∃ out,
    mirror_pair xs = Some out ∧
    length out = ((size (list_to_set xs : gset Z) + 1) / 2)%nat ∧
    (out = [] ↔ xs = []).
Proof.
  exists (render <$> mirror_pairs (sorted (list_set xs))).
  split; [apply mirror_pair_render|].
  assert (length (sorted (list_set xs)) = size (list_to_set xs : gset Z))
    as Hlen.
  { by rewrite sorted_perm. }
  split.
  - by rewrite length_fmap, mirror_pairs_length, Hlen.
  - split.
    + intros Hnil%fmap_nil_inv%mirror_pairs_empty.
      apply elem_of_nil_inv. intros x Hx.
      apply sorted_list_set_elem in Hx. rewrite Hnil in Hx.
      by apply elem_of_nil in Hx.
    + by intros ->.
Qed.

(** X4. A label determines its pair: two pairs of integers have the same
    label only when they are the same pair, negative numbers included. *)
Theorem X4_label_determines_pair (a b c d : Z) :
  label a b = label c d ↔ a = c ∧ b = d.
Proof.
  split; [apply label_inj|]. by intros [-> ->].
Qed.

(** ** Stations outside the universe *)

Lemma filter_agree (P Q : Z → Prop) `{!∀ x, Decision (P x)}
    `{!∀ x, Decision (Q x)} (l : list Z) :
  (∀ x, x ∈ l → P x ↔ Q x) → filter P l = filter Q l.
Proof.
  induction l as [|x l IH]; intros HPQ; [done|].
  rewrite !filter_cons, IH by (intros y Hy; apply HPQ; by right).
  destruct (decide (P x)) as [HP|HP], (decide (Q x)) as [HQ|HQ];
    try done; exfalso; [apply HQ|apply HP]; by apply (HPQ x); [left|].
Qed.

(** [generate_pairs] sees the stored lists only through the stations of
    the universe they hold. *)
Lemma generate_pairs_agree self1 self2 line :
  stations self1 = STATIONS → stations self2 = STATIONS →
  (∀ s, s ∈ STATIONS →
        s ∈ default [] (non_operational_stations self1 !! line) ↔
        s ∈ default [] (non_operational_stations self2 !! line)) →
  filter (λ s, py_in s STATIONS) (default [] (fixed_stations self1 !! "C")) =
  filter (λ s, py_in s STATIONS) (default [] (fixed_stations self2 !! "C")) →
  get_operational_stations self1 line = get_operational_stations self2 line ∧
  generate_pairs self1 line = generate_pairs self2 line.
Proof.
  intros Hst1 Hst2 Hno Hfx.
  assert (get_operational_stations self1 line
          = get_operational_stations self2 line) as Hops.
  { unfold get_operational_stations. rewrite Hst1, Hst2. f_equal.
    apply filter_agree. intros s Hs. rewrite !py_in_spec.
    by rewrite (Hno s Hs). }
  split; [done|].
  unfold generate_pairs. rewrite Hops, Hst1, Hst2, Hfx.
  case_bool_decide as Hline; [subst line|done].
  set (fixed := filter _ (default [] (fixed_stations self2 !! "C"))).
  assert (filter (λ s, ¬ py_in s fixed ∧
                       ¬ py_in s (default [] (non_operational_stations self1 !! "C")))
                 STATIONS
          = filter (λ s, ¬ py_in s fixed ∧
                       ¬ py_in s (default [] (non_operational_stations self2 !! "C")))
                 STATIONS) as ->; [|done].
  apply filter_agree. intros s Hs. rewrite !py_in_spec.
  by rewrite (Hno s Hs).
Qed.

Lemma filter_sorted_list_set_universe sts :
  filter (λ s, py_in s STATIONS)
         (sorted (list_set (filter (λ s, s ∈ STATIONS) sts)))
  = filter (λ s, py_in s STATIONS) (sorted (list_set sts)).
Proof.
  apply lt_sorted_ext;
    [apply filter_lt_sorted, sorted_list_set_lt..|].
  intros s. rewrite !list_elem_of_filter, !sorted_list_set_elem,
    list_elem_of_filter, py_in_spec. tauto.
Qed.

(** X5. Station numbers outside the universe are tolerated and have no
    effect: handing [set_non_operational] or [set_fixed] a list, or only
    the stations of that list that lie in 1..20, gives the same operable
    stations and the same pairs on every line. *)
Theorem X5_out_of_range_ignored (self : ProductionRotation)
    (target line : string) (sts : list Z) :
  stations self = STATIONS →
  let in_range := filter (λ s, s ∈ STATIONS) sts in
  (get_operational_stations (set_non_operational self target sts) line
     = get_operational_stations (set_non_operational self target in_range) line
   ∧ generate_pairs (set_non_operational self target sts) line
     = generate_pairs (set_non_operational self target in_range) line)
  ∧
  (get_operational_stations (set_fixed self target sts) line
     = get_operational_stations (set_fixed self target in_range) line
   ∧ generate_pairs (set_fixed self target sts) line
     = generate_pairs (set_fixed self target in_range) line).
Proof.
  intros Hst in_range. split.
  - apply generate_pairs_agree; [done..| |done].
    intros s Hs. cbn [non_operational_stations set_non_operational].
    destruct (decide (target = line)) as [->|Hne].
    + rewrite !lookup_insert_eq. cbn [from_option id].
      rewrite !sorted_list_set_elem. unfold in_range.
      rewrite list_elem_of_filter. tauto.
    + by rewrite !lookup_insert_ne.
  - apply generate_pairs_agree; [done..|].
    cbn [fixed_stations set_fixed].
    destruct (decide (target = "C")) as [->|Hne].
    + rewrite !lookup_insert_eq. cbn [from_option id].
      symmetry. apply filter_sorted_list_set_universe.
    + by rewrite !lookup_insert_ne.
Qed.

Lemma X5_out_of_range_ignored_witness :
  let self := set_fixed init "C" [4] in
  let sts := [0; 3; 21; -7; 20; 100] in
  let in_range := filter (λ s, s ∈ STATIONS) sts in
  (get_operational_stations (set_non_operational self "C" sts) "C"
     = get_operational_stations (set_non_operational self "C" in_range) "C"
   ∧ generate_pairs (set_non_operational self "C" sts) "C"
     = generate_pairs (set_non_operational self "C" in_range) "C")
  ∧
  (get_operational_stations (set_fixed self "C" sts) "C"
     = get_operational_stations (set_fixed self "C" in_range) "C"
   ∧ generate_pairs (set_fixed self "C" sts) "C"
     = generate_pairs (set_fixed self "C" in_range) "C").
Proof.
  apply (X5_out_of_range_ignored (set_fixed init "C" [4]) "C" "C"
           [0; 3; 21; -7; 20; 100]).
  reflexivity.
Defined.

(** ** How the setters compose *)

Lemma rotation_eq self1 self2 :
  lines self1 = lines self2 → stations self1 = stations self2 →
  non_operational_stations self1 = non_operational_stations self2 →
  fixed_stations self1 = fixed_stations self2 → self1 = self2.
Proof. destruct self1, self2. cbn. by intros -> -> -> ->. Qed.

(** X6. Calls of the setters on different lines can be made in either
    order, and [set_fixed] and [set_non_operational] can always be
    swapped: the engine ends in the same state. *)
Theorem X6_setters_commute (self : ProductionRotation)
    (line1 line2 : string) (sts1 sts2 : list Z) :
  (line1 ≠ line2 →
   set_non_operational (set_non_operational self line1 sts1) line2 sts2
     = set_non_operational (set_non_operational self line2 sts2) line1 sts1
   ∧ set_fixed (set_fixed self line1 sts1) line2 sts2
     = set_fixed (set_fixed self line2 sts2) line1 sts1)
  ∧
  set_fixed (set_non_operational self line1 sts1) line2 sts2
    = set_non_operational (set_fixed self line2 sts2) line1 sts1.
Proof.
  split; [intros Hne; split|]; apply rotation_eq; cbn; try done;
    by apply insert_insert_ne.
Qed.

Lemma X6_setters_commute_witness :
  (set_non_operational (set_non_operational init "B" [2; 1]) "M" [9]
     = set_non_operational (set_non_operational init "M" [9]) "B" [2; 1]
   ∧ set_fixed (set_fixed init "B" [2; 1]) "M" [9]
     = set_fixed (set_fixed init "M" [9]) "B" [2; 1])
  ∧
  set_fixed (set_non_operational init "B" [2; 1]) "M" [9]
    = set_non_operational (set_fixed init "M" [9]) "B" [2; 1].
Proof.
  destruct (X6_setters_commute init "B" "M" [2; 1] [9]) as [H1 H2].
  split; [apply H1; discriminate|exact H2].
Defined.

(** X7. What a setter stores is already in the form it stores: handing a
    setter the stored form of a list is the same as handing it the list,
    and on a reachable engine writing back the list that is stored for a
    line leaves the engine as it is. *)
Theorem X7_stored_form_is_fixpoint :
  (∀ self line sts,
     set_non_operational self line (sorted (list_set sts))
       = set_non_operational self line sts ∧
     set_fixed self line (sorted (list_set sts)) = set_fixed self line sts)
  ∧
  (∀ self line l,
     reachable self →
     (non_operational_stations self !! line = Some l →
      set_non_operational self line l = self) ∧
     (fixed_stations self !! line = Some l →
      set_fixed self line l = self)).
Proof.
  split.
  - intros self line sts. unfold set_non_operational, set_fixed.
    by rewrite (sorted_list_set_id _ (sorted_list_set_lt sts)).
  - intros self line l (_ & _ & Hno & Hfx)%reachable_inv.
    split; intros Hl; apply rotation_eq; cbn; try done.
    + rewrite (sorted_list_set_id l) by eauto. by apply insert_id.
    + rewrite (sorted_list_set_id l) by eauto. by apply insert_id.
Qed.

Lemma X7_stored_form_is_fixpoint_witness :
  let self := set_fixed (set_non_operational init "L" [9; 2; 9]) "C" [7; 3] in
  set_non_operational self "L" [2; 9] = self ∧
  set_fixed self "C" [3; 7] = self.
Proof.
  pose proof (proj2 X7_stored_form_is_fixpoint
    (set_fixed (set_non_operational init "L" [9; 2; 9]) "C" [7; 3])) as H.
  split.
  - apply (H "L" [2; 9]).
    + apply reachable_set_fixed, reachable_set_non_operational, reachable_init.
    + by vm_compute.
  - apply (H "C" [3; 7]).
    + apply reachable_set_fixed, reachable_set_non_operational, reachable_init.
    + by vm_compute.
Defined.

(** ** When a line has no pairs *)

Lemma filter_nil_iff (P : Z → Prop) `{!∀ x, Decision (P x)} (l : list Z) :
  filter P l = [] ↔ ∀ x, x ∈ l → ¬ P x.
Proof.
  split.
  - intros Hnil x Hx HP. apply (not_elem_of_nil x). rewrite <-Hnil.
    by apply list_elem_of_filter.
  - intros Hall. apply elem_of_nil_inv. intros x [HP Hx]%list_elem_of_filter.
    by apply (Hall x).
Qed.

Lemma not_not_elem_of (s : Z) (l : list Z) : ¬ (s ∉ l) ↔ s ∈ l.
Proof. destruct (decide (s ∈ l)); tauto. Qed.

Lemma generate_pairs_nil_other self line :
  stations self = STATIONS → line ≠ "C" →
  generate_pairs self line = Some [] ↔
  ∀ s, s ∈ STATIONS → s ∈ default [] (non_operational_stations self !! line).
Proof.
  intros Hst Hline.
  rewrite generate_pairs_other by done.
  rewrite mirror_pair_sorted by (by apply get_operational_stations_lt).
  rewrite get_operational_stations_filter by done.
  split.
  - intros [= Hnil%fmap_nil_inv%mirror_pairs_empty] s Hs.
    rewrite filter_nil_iff in Hnil. specialize (Hnil s Hs).
    rewrite py_in_spec in Hnil. by apply not_not_elem_of.
  - intros Hall.
    assert (filter (λ s, ¬ py_in s
                     (default [] (non_operational_stations self !! line)))
                   STATIONS = []) as ->; [|done].
    apply filter_nil_iff. intros s Hs. rewrite py_in_spec.
    apply not_not_elem_of. by apply Hall.
Qed.

Lemma generate_pairs_nil_C self :
  stations self = STATIONS →
  generate_pairs self "C" = Some [] ↔
  (∀ s, s ∈ default [] (fixed_stations self !! "C") → s ∉ STATIONS) ∧
  (∀ s, s ∈ STATIONS → s ∈ default [] (non_operational_stations self !! "C")).
Proof.
  intros Hst. rewrite generate_pairs_C. cbn zeta. rewrite Hst.
  set (fixed := filter _ (default [] (fixed_stations self !! "C"))).
  set (unavailable := default [] (non_operational_stations self !! "C")).
  set (remainder := filter _ STATIONS).
  assert (StronglySorted Z.lt remainder) as Hrem
    by apply filter_lt_sorted, STATIONS_sorted.
  rewrite (sorted_list_set_id _ Hrem).
  assert (fixed = [] ↔
          ∀ s, s ∈ default [] (fixed_stations self !! "C") → s ∉ STATIONS)
    as Hfixed.
  { unfold fixed. rewrite filter_nil_iff.
    by setoid_rewrite py_in_spec. }
  split.
  - intros [= Happ]. apply app_eq_nil in Happ as [Hf Hm].
    apply fmap_nil_inv in Hf.
    apply fmap_nil_inv, mirror_pairs_empty in Hm.
    split; [by apply Hfixed|]. intros s Hs.
    unfold remainder in Hm. rewrite filter_nil_iff in Hm.
    specialize (Hm s Hs). rewrite Hf, !py_in_spec in Hm.
    apply not_not_elem_of. intros Hn. apply Hm.
    split; [apply not_elem_of_nil|done].
  - intros [Hf Hall]. apply Hfixed in Hf. rewrite Hf.
    assert (remainder = []) as ->; [|done].
    apply filter_nil_iff. intros s Hs [_ Hn]. rewrite py_in_spec in Hn.
    by apply Hn, Hall.
Qed.

(** X8. A line gets an empty list of pairs in exactly one situation:
    every station of the universe is unavailable on it and, on line C, no
    fixed station lies in the universe. *)
Theorem X8_no_pairs_iff_all_down (self : ProductionRotation) (line : string) :
  reachable self →
  generate_pairs self line = Some [] ↔
  (∀ s, s ∈ STATIONS →
        s ∈ default [] (non_operational_stations self !! line)) ∧
  (line = "C" →
   ∀ s, s ∈ default [] (fixed_stations self !! "C") → s ∉ STATIONS).
Proof.
  intros Hst%reachable_stations.
  destruct (decide (line = "C")) as [->|Hline].
  - rewrite generate_pairs_nil_C by done. tauto.
  - rewrite generate_pairs_nil_other by done. tauto.
Qed.

Lemma X8_no_pairs_iff_all_down_witness :
  let self := set_fixed (set_non_operational init "C" (range2 1 21))
                        "C" [0; 25] in
  generate_pairs self "C" = Some [] ↔
  (∀ s, s ∈ STATIONS →
        s ∈ default [] (non_operational_stations self !! "C")) ∧
  ("C" = "C" →
   ∀ s, s ∈ default [] (fixed_stations self !! "C") → s ∉ STATIONS).
Proof.
  apply (X8_no_pairs_iff_all_down
           (set_fixed (set_non_operational init "C" (range2 1 21))
                      "C" [0; 25]) "C").
  apply reachable_set_fixed, reachable_set_non_operational, reachable_init.
Defined.

(** ** Validation and the submitted branch *)

(** X9. [validate_line_c_configuration] accepts exactly the
    configurations in which no fixed station of line C is also
    unavailable on line C; repetitions and order in the two lists do not
    matter. *)
Theorem X9_validation_accepts_iff_disjoint (ss : session) :
  validate_line_c_configuration ss = inr tt ↔
  ∀ s, s ∈ accommodation_c ss → s ∉ default [] (non_operational ss !! "C").
Proof.
  split; [|apply validate_line_c_configuration_disjoint].
  intros Hval s Ha Hu.
  assert (list_to_set (accommodation_c ss) ∩
          list_to_set (default [] (non_operational ss !! "C"))
          ≠ (∅ : gset Z)) as Hne.
  { intros He. apply (not_elem_of_empty (C := gset Z) s). rewrite <-He.
    by rewrite elem_of_intersection, !elem_of_list_to_set. }
  by rewrite (validate_line_c_configuration_overlap ss Hne) in Hval.
Qed.

Lemma foldl_set_non_operational (v : string → list Z) (codes : list string)
    (handler : ProductionRotation) :
  let handler' :=
    foldl (λ h line_code, set_non_operational h line_code (v line_code))
          handler codes in
  lines handler' = lines handler ∧ stations handler' = stations handler ∧
  fixed_stations handler' = fixed_stations handler ∧
  (reachable handler → reachable handler') ∧
  ∀ line, non_operational_stations handler' !! line =
          if decide (line ∈ codes) then Some (sorted (list_set (v line)))
          else non_operational_stations handler !! line.
Proof.
  revert handler. induction codes as [|code codes IH]; intros handler; cbn.
  { do 4 (split; [done|]). intros line.
    by rewrite decide_False by apply not_elem_of_nil. }
  destruct (IH (set_non_operational handler code (v code)))
    as (Hl & Hs & Hf & Hr & Hn).
  cbn zeta in *. rewrite Hl, Hs, Hf. do 3 (split; [done|]). split.
  { intros Hre. by apply Hr, reachable_set_non_operational. }
  intros line. rewrite Hn. cbn.
  destruct (decide (line ∈ codes)) as [Hin|Hin].
  - rewrite decide_True; [done|]. by right.
  - destruct (decide (line = code)) as [->|Hne].
    + rewrite decide_True by (by left). by rewrite lookup_insert_eq.
    + rewrite decide_False by (rewrite elem_of_cons; tauto).
      by rewrite lookup_insert_ne.
Qed.

(** The submitted branch of [main] when validation passes. *)
Lemma main_submitted_scheduled (ss : session) (date_str : string) :
  (∀ s, s ∈ accommodation_c ss →
        s ∉ default [] (non_operational ss !! "C")) →
  ∃ handler schedule_data,
    main_submitted ss date_str =
      Some (Scheduled handler date_str schedule_data) ∧
    reachable handler ∧
    (∀ line, non_operational_stations handler !! line =
             if decide (line ∈ LINES)
             then Some (sorted (list_set
                          (default [] (non_operational ss !! line))))
             else None) ∧
    fixed_stations handler = {[ "C" := sorted (list_set (accommodation_c ss)) ]} ∧
    (∀ line, schedule_data !! line =
             if decide (line ∈ LINES) then generate_pairs handler line
             else None).
Proof.
  intros Hdis. unfold main_submitted.
  rewrite validate_line_c_configuration_disjoint by done.
  set (handler := set_fixed (configure_lines ss init) "C" (accommodation_c ss)).
  destruct (foldl_set_non_operational
              (λ line, default [] (non_operational ss !! line)) LINES init)
    as (Hl & Hs & Hf & Hr & Hn).
  fold (configure_lines ss init) in Hl, Hs, Hf, Hr, Hn.
  unfold generate_schedule.
  destruct (schedule_loop_lookup handler (lines handler) ∅) as (sd & -> & Hsd).
  assert (lines handler = LINES) as Hlines.
  { unfold handler. cbn [lines set_fixed]. by rewrite Hl. }
  exists handler, sd. split; [done|]. split; [|split; [|split]].
  - apply reachable_set_fixed, Hr, reachable_init.
  - intros line. unfold handler. cbn [non_operational_stations set_fixed].
    rewrite Hn. by case_decide.
  - unfold handler. cbn [fixed_stations set_fixed]. rewrite Hf.
    cbn [fixed_stations init]. by rewrite insert_empty.
  - intros line. rewrite Hsd, Hlines.
    case_decide; [done|apply lookup_empty].
Qed.

(** X10. When validation passes, the submitted branch of [main] hands on
    an engine that holds, for each of the six lines, the sorted distinct
    unavailable stations of the session (nothing for any other key), for
    line C the sorted distinct fixed stations and no other fixed entry,
    together with the date and a schedule that gives every one of the six
    lines the pairs of that engine. *)
Theorem X10_submitted_without_overlap (ss : session) (date_str : string) :
  (∀ s, s ∈ accommodation_c ss →
        s ∉ default [] (non_operational ss !! "C")) →
  ∃ handler schedule_data,
    main_submitted ss date_str =
      Some (Scheduled handler date_str schedule_data) ∧
    reachable handler ∧
    (∀ line, non_operational_stations handler !! line =
             if decide (line ∈ LINES)
             then Some (sorted (list_set
                          (default [] (non_operational ss !! line))))
             else None) ∧
    fixed_stations handler = {[ "C" := sorted (list_set (accommodation_c ss)) ]} ∧
    (∀ line, schedule_data !! line =
             if decide (line ∈ LINES) then generate_pairs handler line
             else None).
Proof.
  intros Hdis. unfold main_submitted.
  rewrite validate_line_c_configuration_disjoint by done.
  set (handler := set_fixed (configure_lines ss init) "C" (accommodation_c ss)).
  destruct (foldl_set_non_operational
              (λ line, default [] (non_operational ss !! line)) LINES init)
    as (Hl & Hs & Hf & Hr & Hn).
  fold (configure_lines ss init) in Hl, Hs, Hf, Hr, Hn.
  unfold generate_schedule.
  destruct (schedule_loop_lookup handler (lines handler) ∅) as (sd & -> & Hsd).
  assert (lines handler = LINES) as Hlines.
  { unfold handler. cbn [lines set_fixed]. by rewrite Hl. }
  exists handler, sd. split; [done|]. split; [|split; [|split]].
  - apply reachable_set_fixed, Hr, reachable_init.
  - intros line. unfold handler. cbn [non_operational_stations set_fixed].
    rewrite Hn. by case_decide.
  - unfold handler. cbn [fixed_stations set_fixed]. rewrite Hf.
    cbn [fixed_stations init]. by rewrite insert_empty.
  - intros line. rewrite Hsd, Hlines.
    case_decide; [done|apply lookup_empty].
Qed.

Lemma X10_submitted_without_overlap_witness :
  let ss := mkSession {[ "C" := [5; 5]; "B" := [20]; "Z" := [1] ]} [7; 3] in
  ∃ handler schedule_data,
    main_submitted ss "11/03/2026" =
      Some (Scheduled handler "11/03/2026" schedule_data) ∧
    reachable handler ∧
    (∀ line, non_operational_stations handler !! line =
             if decide (line ∈ LINES)
             then Some (sorted (list_set
                          (default [] (non_operational ss !! line))))
             else None) ∧
    fixed_stations handler = {[ "C" := sorted (list_set (accommodation_c ss)) ]} ∧
    (∀ line, schedule_data !! line =
             if decide (line ∈ LINES) then generate_pairs handler line
             else None).
Proof.
  apply (X10_submitted_without_overlap
           (mkSession {[ "C" := [5; 5]; "B" := [20]; "Z" := [1] ]} [7; 3])
           "11/03/2026").
  intros s Hs Hu.
  assert (default [] (({[ "C" := [5; 5]; "B" := [20]; "Z" := [1] ]}
                        : gmap string (list Z)) !! "C") = [5; 5]) as Hc
    by (by vm_compute).
  cbn [non_operational accommodation_c] in Hs, Hu. rewrite Hc in Hu.
  rewrite !elem_of_cons, elem_of_nil in Hs, Hu. lia.
Defined.

(** ** The download section *)

Lemma any_values_true {A} (d : gmap string (list A)) :
  any_values d = true ↔ ∃ k v, d !! k = Some v ∧ v ≠ [].
Proof.
  unfold any_values. rewrite existsb_exists. split.
  - intros (v & Hin & Hv). apply list_elem_of_In in Hin.
    apply list_elem_of_fmap in Hin as ([k v'] & -> & Hkv).
    apply elem_of_map_to_list in Hkv. exists k, v'. split; [done|].
    cbn in Hv. by destruct v'.
  - intros (k & v & Hkv & Hv). exists v. split.
    + apply list_elem_of_In, list_elem_of_fmap. exists (k, v).
      split; [done|]. by apply elem_of_map_to_list.
    + by destruct v.
Qed.

Lemma any_values_false {A} (d : gmap string (list A)) :
  any_values d = false ↔ ∀ k v, d !! k = Some v → v = [].
Proof.
  rewrite <-not_true_iff_false, any_values_true. split.
  - intros Hno k v Hkv. destruct v as [|x v]; [done|].
    destruct Hno. by exists k, (x :: v).
  - intros Hall (k & v & Hkv & Hv). by apply Hv, (Hall k).
Qed.

(** X11. For a reachable engine and the schedule it generates,
    [render_download_section] never ends in the error "Cannot generate a
    meaningful schedule": it always offers the download, named after the
    date with dashes for slashes, and puts the notice that only
    unavailable stations will be shown in front of it exactly when no
    line has any pair. *)
Theorem X11_download_always_offered
    (generate_print_friendly_html :
       string → gmap string (list string) → gmap string (list Z) → string)
    (self : ProductionRotation) (date_str : string) :
  reachable self →
  ∃ schedule_data shown,
    generate_schedule self date_str = Some (date_str, schedule_data) ∧
    render_download_section generate_print_friendly_html self date_str
      schedule_data =
    shown ++
    [st_download_button "Click Here to Download HTML"
       (generate_print_friendly_html date_str schedule_data
          (non_operational_stations self))
       ("station_rotation_" +:+ replace_char "/" "-" date_str +:+ ".html")
       "text/html" true "download_button";
     st_success "HTML file ready. Click the button above to download."] ∧
    ((∀ line, line ∈ LINES → generate_pairs self line = Some []) →
     shown = [st_info ("No operational stations available for pairing. "
                       +:+ "The report will show only the unavailable stations.")]) ∧
    ((∃ line, line ∈ LINES ∧ generate_pairs self line ≠ Some []) →
     shown = []).
Proof.
  intros Hre. pose proof Hre as (Hlines & Hst & _ & _)%reachable_inv.
  unfold generate_schedule.
  destruct (schedule_loop_lookup self (lines self) ∅) as (sd & -> & Hsd).
  rewrite Hlines in Hsd. cbn [mbind option_bind].
  assert (any_values sd = false ↔
          ∀ line, line ∈ LINES → generate_pairs self line = Some []) as Hnone.
  { rewrite any_values_false. split.
    - intros Hall line Hline.
      destruct (generate_pairs_total self line) as [ps Hps].
      rewrite Hps. f_equal. apply (Hall line).
      by rewrite Hsd, decide_True.
    - intros Hall k v. rewrite Hsd. case_decide as Hk.
      + rewrite (Hall k Hk). by intros [= <-].
      + by rewrite lookup_empty. }
  assert (any_values sd = false →
          any_values (non_operational_stations self) = true) as Hdown.
  { intros Hno. apply any_values_true.
    assert (generate_pairs self "B" = Some []) as HB.
    { apply Hnone; [done|]. by left. }
    rewrite generate_pairs_nil_other in HB by done.
    assert (1 ∈ default [] (non_operational_stations self !! "B")) as H1.
    { apply HB, elem_of_STATIONS. lia. }
    destruct (non_operational_stations self !! "B") as [l|] eqn:Hl.
    - exists "B", l. split; [done|]. intros ->. by apply elem_of_nil in H1.
    - by apply elem_of_nil in H1. }
  exists sd. unfold render_download_section.
  destruct (any_values sd) eqn:Hany.
  - exists []. cbn [negb andb app]. split; [done|]. split; [done|].
    split; [|done]. intros Hall. apply Hnone in Hall. congruence.
  - rewrite (Hdown eq_refl). cbn [negb andb].
    eexists [_]. split; [done|]. split; [done|]. split; [done|].
    intros (line & Hline & Hne). destruct Hne.
    by apply (proj1 Hnone).
Qed.

Lemma X11_download_always_offered_witness :
  let self := set_non_operational init "B" (range2 1 21) in
  let html := λ (_ : string) (_ : gmap string (list string))
                (_ : gmap string (list Z)), "<html></html>" in
  ∃ schedule_data shown,
    generate_schedule self "11/03/2026" = Some ("11/03/2026", schedule_data) ∧
    render_download_section html self "11/03/2026" schedule_data =
    shown ++
    [st_download_button "Click Here to Download HTML"
       (html "11/03/2026" schedule_data (non_operational_stations self))
       ("station_rotation_" +:+ replace_char "/" "-" "11/03/2026" +:+ ".html")
       "text/html" true "download_button";
     st_success "HTML file ready. Click the button above to download."] ∧
    ((∀ line, line ∈ LINES → generate_pairs self line = Some []) →
     shown = [st_info ("No operational stations available for pairing. "
                       +:+ "The report will show only the unavailable stations.")]) ∧
    ((∃ line, line ∈ LINES ∧ generate_pairs self line ≠ Some []) →
     shown = []).
Proof.
  apply (X11_download_always_offered
           (λ _ _ _, "<html></html>")
           (set_non_operational init "B" (range2 1 21)) "11/03/2026").
  apply reachable_set_non_operational, reachable_init.
Defined.

(** The file name of the report. *)
Example download_file_name :
  "station_rotation_" +:+ replace_char "/" "-" "11/03/2026" +:+ ".html"
  = "station_rotation_11-03-2026.html".
Proof. reflexivity. Qed.

(** ** The session state *)

Lemma foldl_insert_const {A} (f : string → string) (v : A) (ks : list string)
    (w : gmap string A) (j : string) :
  foldl (λ w k, <[f k := v]> w) w ks !! j =
  if decide (j ∈ f <$> ks) then Some v else w !! j.
Proof.
  revert w. induction ks as [|k ks IH]; intros w; cbn.
  { by rewrite decide_False by apply not_elem_of_nil. }
  rewrite IH. destruct (decide (j ∈ f <$> ks)) as [Hin|Hin].
  - rewrite decide_True; [done|]. by right.
  - destruct (decide (j = f k)) as [->|Hne].
    + rewrite decide_True by (by left). by rewrite lookup_insert_eq.
    + rewrite decide_False by (rewrite elem_of_cons; tauto).
      by rewrite lookup_insert_ne.
Qed.

Lemma foldl_insert_missing {A} (f : string → string) (v : A)
    (ks : list string) (w : gmap string A) (j : string) :
  foldl (λ w k, match w !! f k with
                | None => <[f k := v]> w
                | Some _ => w
                end) w ks !! j =
  match w !! j with
  | Some x => Some x
  | None => if decide (j ∈ f <$> ks) then Some v else None
  end.
Proof.
  revert w. induction ks as [|k ks IH]; intros w; cbn.
  { rewrite decide_False by apply not_elem_of_nil. by destruct (w !! j). }
  rewrite IH. destruct (w !! f k) as [x|] eqn:Hk.
  - destruct (w !! j) as [y|] eqn:Hj; [done|].
    assert (j ≠ f k) by (intros ->; congruence).
    destruct (decide (j ∈ f <$> ks)).
    + rewrite decide_True; [done|]. by right.
    + rewrite decide_False; [done|]. rewrite elem_of_cons. tauto.
  - destruct (decide (j = f k)) as [->|Hne].
    + rewrite lookup_insert_eq, Hk. rewrite decide_True; [done|]. by left.
    + rewrite lookup_insert_ne by done. destruct (w !! j); [done|].
      destruct (decide (j ∈ f <$> ks)).
      * rewrite decide_True; [done|]. by right.
      * rewrite decide_False; [done|]. rewrite elem_of_cons. tauto.
Qed.

Lemma foldl_insert_fun {A} (g : string → A) (ks : list string)
    (d : gmap string A) (j : string) :
  foldl (λ d k, <[k := g k]> d) d ks !! j =
  if decide (j ∈ ks) then Some (g j) else d !! j.
Proof.
  revert d. induction ks as [|k ks IH]; intros d; cbn.
  { by rewrite decide_False by apply not_elem_of_nil. }
  rewrite IH. destruct (decide (j ∈ ks)) as [Hin|Hin].
  - rewrite decide_True; [done|]. by right.
  - destruct (decide (j = k)) as [->|Hne].
    + rewrite decide_True by (by left). by rewrite lookup_insert_eq.
    + rewrite decide_False by (rewrite elem_of_cons; tauto).
      by rewrite lookup_insert_ne.
Qed.

Lemma empty_lines_lookup line :
  empty_lines !! line = if decide (line ∈ LINES) then Some [] else None.
Proof.
  unfold empty_lines. rewrite (foldl_insert_fun (λ _, [])).
  case_decide; [done|apply lookup_empty].
Qed.

Lemma non_op_key_inj : Inj (=) (=) non_op_key.
Proof. intros l1 l2. unfold non_op_key. apply (inj (String.app _)). Qed.

Lemma non_op_key_not_accommodation line :
  "accommodation_stations_c" ≠ non_op_key line.
Proof. discriminate. Qed.

Lemma elem_of_non_op_keys line (ks : list string) :
  non_op_key line ∈ non_op_key <$> ks ↔ line ∈ ks.
Proof.
  rewrite list_elem_of_fmap. split.
  - by intros (l & ->%non_op_key_inj & Hl).
  - intros Hl. by exists line.
Qed.

Lemma accommodation_not_in_non_op_keys (ks : list string) :
  "accommodation_stations_c" ∉ non_op_key <$> ks.
Proof. by intros (l & Hl & _)%list_elem_of_fmap. Qed.

(** The widgets after [initialize_session_state], key by key. *)
Lemma initialize_session_state_widgets ss d j :
  st_widgets (initialize_session_state ss d) !! j =
  if decide (widget_key j) then
    if bool_decide (st_last_date ss = Some d)
    then Some (default [] (st_widgets ss !! j))
    else Some []
  else st_widgets ss !! j.
Proof.
  unfold initialize_session_state.
  assert ((match st_last_date ss with
           | None => true
           | Some last => bool_decide (last ≠ d)
           end) = negb (bool_decide (st_last_date ss = Some d))) as ->.
  { destruct (st_last_date ss) as [last|]; cbn; [|done].
    repeat case_bool_decide; naive_solver. }
  pose proof (accommodation_not_in_non_op_keys LINES) as Hacc.
  destruct (bool_decide (st_last_date ss = Some d)); cbn [negb st_widgets];
    rewrite (foldl_insert_missing non_op_key []).
  - assert ((match st_widgets ss !! "accommodation_stations_c" with
             | None => <["accommodation_stations_c" := []]> (st_widgets ss)
             | Some _ => st_widgets ss
             end) !! j =
            if decide (j = "accommodation_stations_c")
            then Some (default [] (st_widgets ss !! j))
            else st_widgets ss !! j) as ->.
    { destruct (decide (j = "accommodation_stations_c")) as [->|Hj].
      - destruct (st_widgets ss !! "accommodation_stations_c") as [x|] eqn:Hx;
          [by rewrite Hx|by rewrite lookup_insert_eq].
      - destruct (st_widgets ss !! "accommodation_stations_c");
          [done|by rewrite lookup_insert_ne]. }
    destruct (decide (widget_key j)) as [Hw|Hw];
      destruct (decide (j = "accommodation_stations_c")) as [Hj|Hj];
      destruct (decide (j ∈ non_op_key <$> LINES)) as [Hin|Hin];
      unfold widget_key in Hw; try tauto;
      by destruct (st_widgets ss !! j).
  - rewrite lookup_insert_eq.
    destruct (decide (j = "accommodation_stations_c")) as [Hj|Hj].
    + subst j. rewrite lookup_insert_eq.
      rewrite decide_True; [done|]. by left.
    + rewrite lookup_insert_ne by done.
      rewrite (foldl_insert_const non_op_key []).
      destruct (decide (widget_key j)) as [Hw|Hw];
        destruct (decide (j ∈ non_op_key <$> LINES)) as [Hin|Hin];
        unfold widget_key in Hw; try tauto;
        by destruct (st_widgets ss !! j).
Qed.

Lemma initialize_session_state_fields ss d :
  let same_day := bool_decide (st_last_date ss = Some d) in
  st_last_date (initialize_session_state ss d) = Some d ∧
  st_non_operational (initialize_session_state ss d) =
    Some (if same_day then default empty_lines (st_non_operational ss)
          else empty_lines) ∧
  st_accommodation_c (initialize_session_state ss d) =
    Some (if same_day then default [] (st_accommodation_c ss) else []).
Proof.
  unfold initialize_session_state.
  destruct (st_last_date ss) as [last|] eqn:Hlast; cbn.
  - destruct (decide (last = d)) as [->|Hne].
    + rewrite bool_decide_false by (by intros ?).
      rewrite bool_decide_true by done. rewrite Hlast.
      by destruct (st_non_operational ss), (st_accommodation_c ss).
    + rewrite bool_decide_true by done.
      by rewrite bool_decide_false by (by intros [= ?]).
  - done.
Qed.

Lemma session_state_eq ss1 ss2 :
  st_last_date ss1 = st_last_date ss2 →
  st_non_operational ss1 = st_non_operational ss2 →
  st_accommodation_c ss1 = st_accommodation_c ss2 →
  st_widgets ss1 = st_widgets ss2 → ss1 = ss2.
Proof. destruct ss1, ss2. cbn. by intros -> -> -> ->. Qed.

(** X12. After [initialize_session_state] the session state is complete
    and dated today: both attributes exist, every widget key of the form
    holds a list, and [update_session_state_after_submit] cannot fail on
    it.  If the state was already dated today, what it held is kept and
    only what was missing is filled with empty values. *)
Theorem X12_initialize_completes (ss : session_state) (d : string) :
  let ss' := initialize_session_state ss d in
  st_last_date ss' = Some d ∧
  is_Some (st_non_operational ss') ∧ is_Some (st_accommodation_c ss') ∧
  (∀ j, widget_key j → is_Some (st_widgets ss' !! j)) ∧
  is_Some (update_session_state_after_submit ss') ∧
  (st_last_date ss = Some d →
   st_non_operational ss' = Some (default empty_lines (st_non_operational ss)) ∧
   st_accommodation_c ss' = Some (default [] (st_accommodation_c ss)) ∧
   (∀ j, st_widgets ss' !! j =
         if decide (widget_key j) then Some (default [] (st_widgets ss !! j))
         else st_widgets ss !! j)).
Proof.
  intros ss'. unfold ss'.
  destruct (initialize_session_state_fields ss d) as (Hd & Hn & Ha).
  split; [done|]. split; [by rewrite Hn|]. split; [by rewrite Ha|].
  split; [|split].
  - intros j Hj. rewrite initialize_session_state_widgets, decide_True by done.
    by case_bool_decide.
  - unfold update_session_state_after_submit. rewrite Hn. cbn. eauto.
  - intros Hsame. rewrite Hn, Ha. rewrite bool_decide_true by done.
    split; [done|]. split; [done|]. intros j.
    rewrite initialize_session_state_widgets.
    by rewrite bool_decide_true by done.
Qed.

(** X13. On a new day (the state carries no date, or another date than
    today's) [initialize_session_state] discards every selection: each of
    the six lines gets an empty list of unavailable stations, the fixed
    stations are empty, every widget key of the form holds the empty
    list, and keys that are not widget keys of the form are untouched. *)
Theorem X13_new_day_resets (ss : session_state) (d : string) :
  st_last_date ss ≠ Some d →
  let ss' := initialize_session_state ss d in
  st_last_date ss' = Some d ∧
  (∃ non_op, st_non_operational ss' = Some non_op ∧
     ∀ line, non_op !! line = if decide (line ∈ LINES) then Some [] else None) ∧
  st_accommodation_c ss' = Some [] ∧
  (∀ j, widget_key j → st_widgets ss' !! j = Some []) ∧
  (∀ j, ¬ widget_key j → st_widgets ss' !! j = st_widgets ss !! j).
Proof.
  intros Hnew ss'. unfold ss'.
  destruct (initialize_session_state_fields ss d) as (Hd & Hn & Ha).
  rewrite bool_decide_false in Hn, Ha by done.
  split; [done|]. split; [|split; [done|split]].
  - exists empty_lines. split; [done|]. apply empty_lines_lookup.
  - intros j Hj. rewrite initialize_session_state_widgets, decide_True by done.
    by rewrite bool_decide_false.
  - intros j Hj.
    by rewrite initialize_session_state_widgets, decide_False.
Qed.

Lemma X13_new_day_resets_witness :
  let ss := mkState (Some "2026-11-02") (Some {[ "B" := [4] ]}) (Some [7])
                    {[ "non_op_B" := [4]; "other" := [1] ]} in
  let ss' := initialize_session_state ss "2026-11-03" in
  st_last_date ss' = Some "2026-11-03" ∧
  (∃ non_op, st_non_operational ss' = Some non_op ∧
     ∀ line, non_op !! line = if decide (line ∈ LINES) then Some [] else None) ∧
  st_accommodation_c ss' = Some [] ∧
  (∀ j, widget_key j → st_widgets ss' !! j = Some []) ∧
  (∀ j, ¬ widget_key j → st_widgets ss' !! j = st_widgets ss !! j).
Proof.
  apply (X13_new_day_resets
           (mkState (Some "2026-11-02") (Some {[ "B" := [4] ]}) (Some [7])
                    {[ "non_op_B" := [4]; "other" := [1] ]})
           "2026-11-03").
  discriminate.
Defined.

Lemma initialize_session_state_complete ss d :
  st_last_date ss = Some d →
  is_Some (st_non_operational ss) → is_Some (st_accommodation_c ss) →
  (∀ j, widget_key j → is_Some (st_widgets ss !! j)) →
  initialize_session_state ss d = ss.
Proof.
  intros Hd [n Hn] [a Ha] Hw.
  destruct (initialize_session_state_fields ss d) as (Hd' & Hn' & Ha').
  rewrite bool_decide_true in Hn', Ha' by done.
  apply session_state_eq.
  - by rewrite Hd'.
  - by rewrite Hn', Hn.
  - by rewrite Ha', Ha.
  - apply map_eq. intros j. rewrite initialize_session_state_widgets.
    rewrite bool_decide_true by done. case_decide as Hj; [|done].
    by destruct (Hw j Hj) as [x ->].
Qed.

(** X14. [initialize_session_state] is idempotent for a given date, and a
    state that is dated today and complete is returned unchanged, so that
    reruns of the script within a day keep the selections. *)
Theorem X14_initialize_idempotent :
  (∀ ss d,
     initialize_session_state (initialize_session_state ss d) d
       = initialize_session_state ss d)
  ∧
  (∀ ss d,
     st_last_date ss = Some d →
     is_Some (st_non_operational ss) → is_Some (st_accommodation_c ss) →
     (∀ j, widget_key j → is_Some (st_widgets ss !! j)) →
     initialize_session_state ss d = ss).
Proof.
  split; [|apply initialize_session_state_complete].
  intros ss d.
  destruct (initialize_session_state_fields ss d) as (Hd & Hn & Ha).
  apply initialize_session_state_complete;
    [done|by rewrite Hn|by rewrite Ha|].
  intros j Hj. rewrite initialize_session_state_widgets, decide_True by done.
  by case_bool_decide.
Qed.

Lemma X14_initialize_idempotent_witness :
  let ss := mkState (Some "2026-11-03") (Some {[ "B" := [4] ]}) (Some [7])
              {[ "accommodation_stations_c" := [7]; "non_op_B" := [4];
                 "non_op_C" := []; "non_op_L" := []; "non_op_M" := [];
                 "non_op_N" := []; "non_op_O" := [] ]} in
  initialize_session_state ss "2026-11-03" = ss.
Proof.
  apply (proj2 X14_initialize_idempotent); [reflexivity|by eexists..|].
  intros j [->|Hj]; [refine (bool_decide_unpack _ _); by vm_compute|].
  change (j ∈ ["non_op_B"; "non_op_C"; "non_op_L"; "non_op_M";
               "non_op_N"; "non_op_O"]) in Hj.
  repeat (apply elem_of_cons in Hj as [->|Hj];
          [refine (bool_decide_unpack _ _); by vm_compute|]).
  by apply elem_of_nil in Hj.
Defined.

Lemma update_session_state_after_submit_some ss non_op :
  st_non_operational ss = Some non_op →
  update_session_state_after_submit ss =
  Some {| st_last_date := st_last_date ss;
          st_non_operational :=
            Some (foldl (λ d line_code,
                           <[line_code :=
                               default [] (st_widgets ss !! non_op_key line_code)]> d)
                        non_op LINES);
          st_accommodation_c :=
            Some (default [] (st_widgets ss !! "accommodation_stations_c"));
          st_widgets := st_widgets ss |}.
Proof. intros Hn. unfold update_session_state_after_submit. by rewrite Hn. Qed.

(** X15. [update_session_state_after_submit] fails only when the
    attribute [non_operational] was never assigned.  Otherwise it copies
    the widget values into the two attributes: each of the six lines gets
    the list under its widget key (the empty list when the key is
    absent), other entries of [non_operational] stay, the fixed stations
    become the list under [accommodation_stations_c], and the date and
    the widgets are unchanged; a second call changes nothing more. *)
Theorem X15_update_copies_widgets (ss : session_state) :
  (update_session_state_after_submit ss = None ↔
   st_non_operational ss = None)
  ∧
  (∀ non_op, st_non_operational ss = Some non_op →
     ∃ ss' non_op',
       update_session_state_after_submit ss = Some ss' ∧
       st_last_date ss' = st_last_date ss ∧
       st_widgets ss' = st_widgets ss ∧
       st_accommodation_c ss' =
         Some (default [] (st_widgets ss !! "accommodation_stations_c")) ∧
       st_non_operational ss' = Some non_op' ∧
       (∀ line, non_op' !! line =
                if decide (line ∈ LINES)
                then Some (default [] (st_widgets ss !! non_op_key line))
                else non_op !! line) ∧
       update_session_state_after_submit ss' = Some ss').
Proof.
  split.
  - unfold update_session_state_after_submit.
    destruct (st_non_operational ss); cbn; split; done.
  - intros non_op Hn.
    rewrite (update_session_state_after_submit_some _ _ Hn).
    eexists _, _. split; [done|].
    cbn [st_last_date st_widgets st_accommodation_c st_non_operational].
    do 4 (split; [done|]).
    split.
    + intros line.
      apply (foldl_insert_fun
               (λ line, default [] (st_widgets ss !! non_op_key line))).
    + erewrite update_session_state_after_submit_some by done.
      cbn [st_last_date st_widgets st_accommodation_c st_non_operational].
      do 2 f_equal. f_equal. apply map_eq. intros line.
      rewrite !(foldl_insert_fun
                  (λ line, default [] (st_widgets ss !! non_op_key line))).
      by case_decide.
Qed.

Lemma X15_update_copies_widgets_witness :
  let ss := mkState (Some "2026-11-03") (Some {[ "Z" := [1] ]}) None
                    {[ "non_op_B" := [4; 4] ]} in
  ∃ ss' non_op',
    update_session_state_after_submit ss = Some ss' ∧
    st_last_date ss' = st_last_date ss ∧
    st_widgets ss' = st_widgets ss ∧
    st_accommodation_c ss' =
      Some (default [] (st_widgets ss !! "accommodation_stations_c")) ∧
    st_non_operational ss' = Some non_op' ∧
    (∀ line, non_op' !! line =
             if decide (line ∈ LINES)
             then Some (default [] (st_widgets ss !! non_op_key line))
             else ({[ "Z" := [1] ]} : gmap string (list Z)) !! line) ∧
    update_session_state_after_submit ss' = Some ss'.
Proof.
  apply (proj2 (X15_update_copies_widgets
                  (mkState (Some "2026-11-03") (Some {[ "Z" := [1] ]}) None
                           {[ "non_op_B" := [4; 4] ]}))).
  reflexivity.
Defined.

(** ** [main] from start to end *)

Lemma main_submitted_total session date_str :
  is_Some (main_submitted session date_str).
Proof.
  unfold main_submitted.
  destruct (validate_line_c_configuration session); [eauto|].
  destruct (generate_schedule_total
              (set_fixed (configure_lines session init) "C"
                         (accommodation_c session)) date_str) as [[d sd] ->].
  cbn. eauto.
Qed.

Lemma main_unfold gen ss d1 d2 date_str submitted :
  let ss1 := initialize_session_state ss d1 in
  main gen ss d1 d2 date_str submitted =
  if submitted then
    ss2 ← update_session_state_after_submit ss1;
    session ← session_of ss2;
    result ← main_submitted session date_str;
    match result with
    | Rejected msg => Some (ss2, main_opening ss d1 d2 ++ [st_error msg])
    | Scheduled handler d sd =>
        Some (ss2, main_opening ss d1 d2 ++ [st_header "Download"]
                   ++ render_download_section gen handler d sd)
    end
  else
    Some (ss1, main_opening ss d1 d2
               ++ (if bool_decide (d1 = d2) then [hint_info] else [])).
Proof.
  intros ss1. unfold main, main_opening. fold ss1.
  destruct (initialize_session_state_fields ss d1) as (Hd & _ & _).
  fold ss1 in Hd. rewrite Hd.
  assert (bool_decide (d1 ≠ d2) = negb (bool_decide (d1 = d2))) as ->.
  { repeat case_bool_decide; naive_solver. }
  destruct submitted.
  - by destruct (bool_decide (d1 = d2)).
  - destruct (bool_decide (d1 = d2)); cbn [negb andb]; [done|].
    by rewrite app_nil_r.
Qed.

(** X16. [main] never lets an exception escape, and what it shows before
    the outcome depends on the two clock readings only: the page
    configuration, the title, the form, and between them the "new day"
    welcome exactly when the reading taken by [main] differs from the one
    taken by [initialize_session_state], whatever date the session state
    carried.  Without a submission the state is the initialised one and
    the hint to configure follows, again only when the readings agree. *)
Theorem X16_main_opening
    (gen : string → gmap string (list string) → gmap string (list Z) → string)
    (ss : session_state) (d1 d2 date_str : string) (submitted : bool) :
  ∃ ss' rest,
    main gen ss d1 d2 date_str submitted =
      Some (ss',
            [st_set_page_config "Station Rotation" "wide";
             st_title "Station Rotation"]
            ++ (if bool_decide (d1 = d2) then [] else [welcome_info d2])
            ++ render_configuration_form (initialize_session_state ss d1)
                 STATIONS
            ++ rest) ∧
    (submitted = false →
     ss' = initialize_session_state ss d1 ∧
     rest = if bool_decide (d1 = d2) then [hint_info] else []) ∧
    (submitted = true → rest ≠ []).
Proof.
  rewrite main_unfold. cbn zeta. unfold main_opening.
  destruct submitted.
  - destruct (initialize_session_state_fields ss d1) as (_ & Hn & _).
    rewrite (update_session_state_after_submit_some _ _ Hn).
    cbn [mbind option_bind session_of st_non_operational st_accommodation_c].
    match goal with
    | |- context [main_submitted ?sess date_str] =>
        destruct (main_submitted_total sess date_str) as [[msg|h d sd] ->]
    end; cbn [mbind option_bind].
    + eexists _, [st_error msg]. rewrite <-!app_assoc.
      split; [done|]. split; [done|]. done.
    + eexists _, (st_header "Download" :: render_download_section gen h d sd).
      rewrite <-!app_assoc. split; [done|]. split; [done|]. done.
  - eexists _, _. rewrite <-!app_assoc. split; [done|]. split; [|done].
    done.
Qed.

(** What the submitted branch reads after initialisation and update: the
    lists under the widget keys. *)
Lemma main_session ss d1 :
  let ss1 := initialize_session_state ss d1 in
  ∃ ss2 session,
    update_session_state_after_submit ss1 = Some ss2 ∧
    session_of ss2 = Some session ∧
    st_accommodation_c ss2 = Some (accommodation_c session) ∧
    accommodation_c session =
      default [] (st_widgets ss1 !! "accommodation_stations_c") ∧
    ∀ line, line ∈ LINES →
            non_operational session !! line =
            Some (default [] (st_widgets ss1 !! non_op_key line)).
Proof.
  intros ss1.
  destruct (initialize_session_state_fields ss d1) as (_ & Hn & _).
  fold ss1 in Hn.
  rewrite (update_session_state_after_submit_some _ _ Hn).
  eexists _, _. split; [done|].
  cbn [session_of mbind option_bind st_non_operational st_accommodation_c].
  split; [done|]. split; [done|]. split; [done|]. intros line Hline.
  cbn [non_operational st_widgets].
  rewrite (foldl_insert_fun
             (λ line, default [] (st_widgets ss1 !! non_op_key line))).
  by rewrite decide_True.
Qed.

Lemma render_download_section_pairs gen handler date sd :
  any_values sd = true →
  render_download_section gen handler date sd =
  download_calls (gen date sd (non_operational_stations handler)) date.
Proof.
  intros Hany. unfold render_download_section, download_calls.
  by rewrite Hany.
Qed.

Lemma widget_key_non_op line : line ∈ LINES → widget_key (non_op_key line).
Proof. intros Hl. right. by apply elem_of_non_op_keys. Qed.

(** X17. The first run of [main] on a new day discards what was
    submitted: whatever the widgets held, the selections are reset before
    they are read, validation passes, and the report offered for download
    is the one of an unconfigured engine, the full mirror pairing on each
    of the six lines and no unavailable station. *)
Theorem X17_new_day_submission_discarded
    (gen : string → gmap string (list string) → gmap string (list Z) → string)
    (ss : session_state) (d1 d2 date_str : string) :
  st_last_date ss ≠ Some d1 →
  ∃ ss' schedule_data down,
    main gen ss d1 d2 date_str true =
      Some (ss', main_opening ss d1 d2 ++ [st_header "Download"]
                 ++ download_calls (gen date_str schedule_data down) date_str) ∧
    (∀ line, schedule_data !! line =
             if decide (line ∈ LINES) then Some full_pairing else None) ∧
    (∀ line, down !! line =
             if decide (line ∈ LINES) then Some [] else None) ∧
    st_accommodation_c ss' = Some [].
Proof.
  intros Hnew. rewrite main_unfold. cbn zeta.
  destruct (main_session ss d1) as (ss2 & sess & -> & Hsess & Hacc2 & Hacc & Hno).
  cbn zeta in *. cbn [mbind option_bind]. rewrite Hsess. cbn [mbind option_bind].
  assert (∀ j, widget_key j →
               st_widgets (initialize_session_state ss d1) !! j = Some [])
    as Hw.
  { intros j Hj. rewrite initialize_session_state_widgets, decide_True by done.
    by rewrite bool_decide_false. }
  rewrite Hw in Hacc by (by left). cbn in Hacc.
  assert (∀ line, line ∈ LINES → non_operational sess !! line = Some [])
    as Hno'.
  { intros line Hl. rewrite (Hno line Hl).
    by rewrite Hw by (by apply widget_key_non_op). }
  destruct (main_submitted_scheduled sess date_str)
    as (handler & sd & -> & Hre & Hdown & Hfx & Hsd).
  { intros s Hs. rewrite Hacc in Hs. by apply elem_of_nil in Hs. }
  cbn [mbind option_bind].
  assert (∀ line, line ∈ LINES →
                  non_operational_stations handler !! line = Some []) as Hd.
  { intros line Hl. rewrite Hdown, decide_True by done.
    by rewrite (Hno' line Hl). }
  assert (∀ line, line ∈ LINES →
                  generate_pairs handler line = Some full_pairing) as Hgen.
  { intros line Hl.
    destruct (generate_pairs_agree handler init line) as [_ ->].
    - by apply reachable_stations.
    - done.
    - intros s _. rewrite (Hd line Hl). done.
    - rewrite Hfx, Hacc. done.
    - by apply generate_pairs_unconfigured. }
  assert (any_values sd = true) as Hany.
  { apply any_values_true. exists "B", full_pairing. split; [|done].
    rewrite Hsd, decide_True by (by left). apply Hgen. by left. }
  rewrite (render_download_section_pairs _ _ _ _ Hany).
  exists ss2, sd, (non_operational_stations handler).
  split; [done|]. split; [|split].
  - intros line. rewrite Hsd. case_decide; [by apply Hgen|done].
  - intros line. rewrite Hdown. case_decide as Hl; [|done].
    by rewrite (Hno' line Hl).
  - by rewrite Hacc2, Hacc.
Qed.

Lemma X17_new_day_submission_discarded_witness :
  let gen := λ (_ : string) (_ : gmap string (list string))
               (_ : gmap string (list Z)), "<html></html>" in
  let ss := mkState (Some "2026-11-02") (Some {[ "B" := [4] ]}) (Some [7])
                    {[ "non_op_B" := [4]; "accommodation_stations_c" := [7] ]} in
  ∃ ss' schedule_data down,
    main gen ss "2026-11-03" "2026-11-03" "11/03/2026" true =
      Some (ss', main_opening ss "2026-11-03" "2026-11-03"
                 ++ [st_header "Download"]
                 ++ download_calls (gen "11/03/2026" schedule_data down)
                      "11/03/2026") ∧
    (∀ line, schedule_data !! line =
             if decide (line ∈ LINES) then Some full_pairing else None) ∧
    (∀ line, down !! line =
             if decide (line ∈ LINES) then Some [] else None) ∧
    st_accommodation_c ss' = Some [].
Proof.
  apply (X17_new_day_submission_discarded
           (λ _ _ _, "<html></html>")
           (mkState (Some "2026-11-02") (Some {[ "B" := [4] ]}) (Some [7])
                    {[ "non_op_B" := [4]; "accommodation_stations_c" := [7] ]})
           "2026-11-03" "2026-11-03" "11/03/2026").
  discriminate.
Defined.



(** ** The form row for the unavailable stations of line C *)

(** X19. The row that picks the unavailable stations of line C, drawn
    over the universe 1..20, never offers a station that is currently
    accommodated: it ends with a multiselect over exactly the other
    stations, in ascending order, or, when every station of the universe
    is accommodated, with the notice that says so and no multiselect.
    The warning "No stations to mark as 'Unavailable'" is never shown. *)
Theorem X19_line_c_picker (ss : session_state)
    (primary secondary key help : string) (options widths : list Z) :
  let accommodated :=
    default [] (st_widgets ss !! "accommodation_stations_c") in
  let calls :=
    _render_line_input_row ss primary secondary key options help widths
      true (Some STATIONS) in
  (∀ body, st_warning body ∉ calls) ∧
  ((∃ s, s ∈ STATIONS ∧ s ∉ accommodated) →
   ∃ offered,
     last calls = Some (st_multiselect "" offered key help) ∧
     StronglySorted Z.lt offered ∧
     ∀ s, s ∈ offered ↔ s ∈ STATIONS ∧ s ∉ accommodated) ∧
  ((∀ s, s ∈ STATIONS → s ∈ accommodated) →
   last calls =
     Some (st_info ("All stations are 'Accommodated' or no others "
                    +:+ "to mark 'Unavailable'.")) ∧
   ∀ label offered k h, st_multiselect label offered k h ∉ calls).
Proof.
  intros accommodated calls. unfold calls, _render_line_input_row.
  fold accommodated.
  set (offered := filter (λ s, ¬ py_in s accommodated) STATIONS).
  set (label_calls := [st_columns widths; _]).
  assert (∀ c, c ∈ label_calls →
               (∀ body, c ≠ st_warning body) ∧
               (∀ l o k h, c ≠ st_multiselect l o k h)) as Hlabel.
  { intros c. unfold label_calls.
    rewrite !elem_of_cons, elem_of_nil.
    intros [->|[->|[]]]; [done|]. by case_bool_decide. }
  assert (∀ s, s ∈ offered ↔ s ∈ STATIONS ∧ s ∉ accommodated) as Hoff.
  { intros s. unfold offered. rewrite list_elem_of_filter, py_in_spec. tauto. }
  destruct offered as [|o offered'] eqn:Ho; cbn [is_empty].
  - assert (1 ∈ accommodated) as H1.
    { apply not_not_elem_of. intros Hn.
      apply (not_elem_of_nil 1), Hoff. split; [|done].
      apply elem_of_STATIONS. lia. }
    destruct accommodated as [|a acc'] eqn:Hacc;
      [by apply elem_of_nil in H1|]. cbn [is_empty negb].
    split; [|split].
    + intros body [Hin|Hin]%elem_of_app.
      * by apply (proj1 (Hlabel _ Hin) body).
      * by apply list_elem_of_singleton in Hin.
    + intros (s & Hs & Hn). exfalso.
      by apply (not_elem_of_nil s), Hoff.
    + intros _. split; [by rewrite last_snoc|].
      intros l o k h [Hin|Hin]%elem_of_app.
      * by apply (proj2 (Hlabel _ Hin) l o k h).
      * by apply list_elem_of_singleton in Hin.
  - split; [|split].
    + intros body [Hin|Hin]%elem_of_app.
      * by apply (proj1 (Hlabel _ Hin) body).
      * by apply list_elem_of_singleton in Hin.
    + intros _. exists (o :: offered'). split; [by rewrite last_snoc|].
      split; [|done]. rewrite <-Ho.
      apply filter_lt_sorted, STATIONS_sorted.
    + intros Hall. exfalso.
      assert (o ∈ o :: offered') as Hin by (by left).
      apply Hoff in Hin as [Hs Hn]. by apply Hn, Hall.
Qed.

Lemma X19_line_c_picker_witness :
  let ss := mkState None None None
              {[ "accommodation_stations_c" := [3; 7] ]} in
  let accommodated :=
    default [] (st_widgets ss !! "accommodation_stations_c") in
  let calls :=
    _render_line_input_row ss "" "Unavailable" "non_op_C" [] "help" [2; 5]
      true (Some STATIONS) in
  (∀ body, st_warning body ∉ calls) ∧
  ((∃ s, s ∈ STATIONS ∧ s ∉ accommodated) →
   ∃ offered,
     last calls = Some (st_multiselect "" offered "non_op_C" "help") ∧
     StronglySorted Z.lt offered ∧
     ∀ s, s ∈ offered ↔ s ∈ STATIONS ∧ s ∉ accommodated) ∧
  ((∀ s, s ∈ STATIONS → s ∈ accommodated) →
   last calls =
     Some (st_info ("All stations are 'Accommodated' or no others "
                    +:+ "to mark 'Unavailable'.")) ∧
   ∀ label offered k h, st_multiselect label offered k h ∉ calls).
Proof.
  apply (X19_line_c_picker
           (mkState None None None {[ "accommodation_stations_c" := [3; 7] ]})
           "" "Unavailable" "non_op_C" "help" [] [2; 5]).
Defined.

(** ** Line C without fixed stations *)

(** X20. Line C is special only through its fixed stations: on a
    reachable engine in which no fixed station of C lies in the universe
    (none was set, or only numbers outside 1..20), line C is paired like
    every other line, by mirroring its operable stations. *)
Theorem X20_line_c_without_fixed (self : ProductionRotation) :
  reachable self →
  (∀ s, s ∈ default [] (fixed_stations self !! "C") → s ∉ STATIONS) →
  generate_pairs self "C" = mirror_pair (get_operational_stations self "C") ∧
  ∀ other, other ≠ "C" →
    non_operational_stations self !! other
      = non_operational_stations self !! "C" →
    generate_pairs self other = generate_pairs self "C".
Proof.
  intros Hst%reachable_stations Hfx.
  assert (generate_pairs self "C"
          = mirror_pair (get_operational_stations self "C")) as HC.
  { rewrite generate_pairs_C. cbn zeta. rewrite Hst.
    assert (filter (λ s, py_in s STATIONS)
                   (default [] (fixed_stations self !! "C")) = []) as ->.
    { apply filter_nil_iff. intros s Hs. rewrite py_in_spec. by apply Hfx. }
    cbn [fmap list_fmap app].
    rewrite get_operational_stations_filter by done.
    rewrite mirror_pair_render.
    rewrite (filter_agree
               (λ s, ¬ py_in s [] ∧
                     ¬ py_in s (default []
                                  (non_operational_stations self !! "C")))
               (λ s, ¬ py_in s (default []
                                  (non_operational_stations self !! "C"))));
      [done|].
    intros s _. rewrite !py_in_spec.
    split; [tauto|]. intros Hn. split; [apply not_elem_of_nil|done]. }
  split; [done|]. intros other Hother Hsame.
  rewrite HC, generate_pairs_other by done.
  unfold get_operational_stations. by rewrite Hsame.
Qed.

Lemma X20_line_c_without_fixed_witness :
  let self := set_fixed
                (set_non_operational (set_non_operational init "C" [2; 9])
                                     "M" [9; 2])
                "C" [0; 21] in
  generate_pairs self "C" = mirror_pair (get_operational_stations self "C") ∧
  ∀ other, other ≠ "C" →
    non_operational_stations self !! other
      = non_operational_stations self !! "C" →
    generate_pairs self other = generate_pairs self "C".
Proof.
  apply (X20_line_c_without_fixed
           (set_fixed
              (set_non_operational (set_non_operational init "C" [2; 9])
                                   "M" [9; 2])
              "C" [0; 21])).
  - apply reachable_set_fixed, reachable_set_non_operational,
      reachable_set_non_operational, reachable_init.
  - intros s Hs.
    assert (default [] (fixed_stations
              (set_fixed
                 (set_non_operational (set_non_operational init "C" [2; 9])
                                      "M" [9; 2])
                 "C" [0; 21]) !! "C") = [0; 21]) as Hfx by (by vm_compute).
    rewrite Hfx in Hs. rewrite elem_of_STATIONS.
    rewrite !elem_of_cons, elem_of_nil in Hs. lia.
Defined.

(** ** A submission within the day *)



